(** * Creational design patterns: a shallow embedding of the Python demos

    The repository holds four self-contained scripts
    ([Factory/factory.py], [Singleton_Pattern/singleton_pattern.py],
    [Builder/builder.py], [Abstract_Factory/abstract__factory.py]).
    Each script is embedded in a module of its own.  Python objects whose
    identity or mutation matters live in an explicit store; calls that can
    raise return a [res].  Argument and field values range over [atom]
    ([None], booleans, integers, strings), lookup keys over [key] (atoms,
    tuples and lists); the printing methods
    [House.__str__] and [display_pet] are embedded, [Singleton1.__str__],
    which renders a dict, is not. *)

From Stdlib Require Import ZArith DecimalString.
From stdpp Require Import base option list strings gmap fin_maps.

(** ** Python prelude: exceptions, results, a state-and-error monad *)

Module Py.

(** The built-in exceptions the scripts can raise. *)
Inductive exn : Type :=
| NotImplementedError
| AttributeError
| TypeError.

(** Outcome of a Python call: a value, or a propagating exception. *)
Inductive res (A : Type) : Type :=
| Ret (a : A)
| Raise (e : exn).
Arguments Ret {A} a.
Arguments Raise {A} e.

Definition raises {A} (r : res A) : Prop := ∃ e, r = Raise e.
Definition returns {A} (r : res A) : Prop := ∃ a, r = Ret a.

(** Stateful calls: the store is threaded, also through a raise. *)
Definition M (S A : Type) : Type := S → res A * S.

Definition ret {S A} (a : A) : M S A := λ s, (Ret a, s).
Definition throw {S A} (e : exn) : M S A := λ s, (Raise e, s).
Definition bind {S A B} (m : M S A) (k : A → M S B) : M S B :=
  λ s, match m s with
       | (Ret a, s') => k a s'
       | (Raise e, s') => (Raise e, s')
       end.
Definition modify {S} (f : S → S) : M S unit := λ s, (Ret tt, f s).
Definition gets {S A} (f : S → A) : M S A := λ s, (Ret (f s), s).
Definition lift {S A} (r : res A) : M S A := λ s, (r, s).

(** Immutable Python values passed around as arguments and fields. *)
Inductive atom : Type :=
| ANone
| ABool (b : bool)
| AInt (n : Z)
| AStr (s : string).

(** [str(n)] for an integer, as an f-string interpolates it. *)
Definition str_int (n : Z) : string := NilZero.string_of_int (Z.to_int n).

(** [str(v)], what an f-string interpolates. *)
Definition str (v : atom) : string :=
  match v with
  | ANone => "None"
  | ABool true => "True"
  | ABool false => "False"
  | AInt n => str_int n
  | AStr s => s
  end.

(** Truth value of [v] in a condition. *)
Definition truthy (v : atom) : bool :=
  match v with
  | ANone => false
  | ABool b => b
  | AInt n => negb (n =? 0)%Z
  | AStr s => negb (String.eqb s "")
  end.

(** Attribute lookup along a method resolution order: the first class
    whose body defines the attribute wins. *)
Fixpoint resolve {C A} (own : C → option A) (order : list C) : option A :=
  match order with
  | [] => None
  | c :: rest =>
      match own c with
      | Some m => Some m
      | None => resolve own rest
      end
  end.

(** Values a caller can pass as a lookup key: atoms, tuples and lists. *)
#[local] Set Warnings "-register-all".
Inductive key : Type :=
| KAtom (a : atom)
| KTuple (items : list key)
| KList (items : list key).

(** [hash(k)] is defined for an atom and for a tuple of hashable items;
    a list has no hash. *)
Fixpoint hashable (k : key) : bool :=
  match k with
  | KAtom _ => true
  | KTuple items => forallb hashable items
  | KList _ => false
  end.

(** Looking a key up in a dict whose keys are all strings: a key that is
    not a string is equal to none of them. *)
Definition dict_lookup {V} (d : gmap string V) (k : key) : option V :=
  match k with
  | KAtom (AStr s) => d !! s
  | KAtom ANone | KAtom (ABool _) | KAtom (AInt _) => None
  | KTuple _ | KList _ => None
  end.

(** [d.get(k, default)]: the key is hashed first, which raises
    [TypeError] for an unhashable one; then the entry or the default. *)
Definition dict_get {V} (d : gmap string V) (k : key) (dflt : V) : res V :=
  if hashable k then
    match dict_lookup d k with
    | Some v => Ret v
    | None => Ret dflt
    end
  else Raise TypeError.

End Py.

Import Py.

Declare Scope py_scope.
Delimit Scope py_scope with py.
Notation "'let*' x := m 'in' k" := (bind m (λ x, k))
  (at level 10, x name, m at level 100, k at level 200) : py_scope.
Notation "'do' m 'then' k" := (bind m (λ _, k))
  (at level 10, m at level 100, k at level 200) : py_scope.

(** ** Factory/factory.py *)

Module Factory.

(** The script binds the global names [Dog] and [Cat] twice: lines 59
    and 63 bind them to the subclasses of [Pet], whose initialiser takes
    a name, a breed and an age; lines 99 and 106 rebind them to classes
    whose initialiser takes a name only.  A function body that mentions
    [Dog] or [Cat] finds the class bound at the time of the call. *)
Inductive binding : Type := PetSubclass | NameOnly.

Record globals : Type := Globals { Dog_bound : binding; Cat_bound : binding }.

(** The bindings while lines 86-90 call the creators, and the bindings
    from line 106 on, which are those of the loaded module. *)
Definition globals_at_line_86 : globals := Globals PetSubclass PetSubclass.
Definition globals_loaded : globals := Globals NameOnly NameOnly.

(** *** First part: the Factory Method classes (lines 49-90) *)
Module FactoryMethod.

Inductive cls : Type := Pet | Dog | Cat.

(** Method resolution order: [Dog(Pet)], [Cat(Pet)]. *)
Definition mro (c : cls) : list cls :=
  match c with
  | Pet => [Pet]
  | Dog => [Dog; Pet]
  | Cat => [Cat; Pet]
  end.

Record obj : Type := Obj {
  class : cls;
  name : atom;
  breed : atom;
  age : atom
}.

(** [Pet.__init__], the only initialiser; both subclasses inherit it. *)
Definition new (c : cls) (name breed age : atom) : obj :=
  Obj c name breed age.

(** The [speak] a class defines in its own body. *)
Definition own_speak (c : cls) : option (obj → res string) :=
  match c with
  | Pet => Some (λ _, Raise NotImplementedError)
  | Dog => Some (λ self,
      Ret ("woof! I'm " +:+ str (name self) +:+ ", a " +:+ str (age self)
           +:+ "-year-old " +:+ str (breed self) +:+ "."))
  | Cat => Some (λ self,
      Ret ("meow! I'm " +:+ str (name self) +:+ ", a " +:+ str (age self)
           +:+ "-year-old " +:+ str (breed self) +:+ "."))
  end.

(** [self.speak()] *)
Definition speak (self : obj) : res string :=
  match resolve own_speak (mro (class self)) with
  | Some m => m self
  | None => Raise AttributeError
  end.

Inductive creator : Type := PetFactory | DogFactory | CatFactory.

Definition creator_mro (c : creator) : list creator :=
  match c with
  | PetFactory => [PetFactory]
  | DogFactory => [DogFactory; PetFactory]
  | CatFactory => [CatFactory; PetFactory]
  end.

(** Calling the class a global name is bound to with three positional
    arguments: the subclass of [Pet] makes the object; the class whose
    initialiser takes a name only cannot bind them. *)
Definition construct (b : binding) (c : cls) (name breed age : atom)
    : res obj :=
  match b with
  | PetSubclass => Ret (new c name breed age)
  | NameOnly => Raise TypeError
  end.

Definition own_get_pet (g : globals) (c : creator) : option (res obj) :=
  match c with
  | PetFactory => Some (Raise NotImplementedError)
  | DogFactory =>
      Some (construct (Dog_bound g) Dog (AStr "Jimmy")
              (AStr "Golden Retriever") (AInt 2))
  | CatFactory =>
      Some (construct (Cat_bound g) Cat (AStr "Tom") (AStr "Persian")
              (AInt 3))
  end.

(** [self.get_pet()], called while the globals are [g]. *)
Definition get_pet (g : globals) (self : creator) : res obj :=
  match resolve (own_get_pet g) (creator_mro self) with
  | Some m => m
  | None => Raise AttributeError
  end.

(** The store of this part is the list of lines printed so far. *)
Definition print (line : string) : M (list string) unit :=
  modify (λ out, out ++ [line]).

(** [display_pet] is defined once, in [PetFactory], and inherited. *)
Definition display_pet (g : globals) (self : creator)
    : M (list string) unit :=
  (let* pet := lift (get_pet g self) in
   let* said := lift (speak pet) in
   print ("The pet says: " +:+ said))%py.

End FactoryMethod.

(** *** Second part: lookup in a dict, [None] on a miss (lines 99-121)

    From line 106 on, so for as long as this [get_pet] exists, [Dog] and
    [Cat] are bound to the classes of this part. *)
Module DictLookup.

Inductive cls : Type := Dog | Cat.

Record obj : Type := Obj { class : cls; name : atom }.

(** [Dog.__init__] and [Cat.__init__] have the same body. *)
Definition new (c : cls) (name : atom) : obj := Obj c name.

Definition speak (self : obj) : res string :=
  match class self with
  | Dog => Ret "woof!"
  | Cat => Ret "Meow!"
  end.

(** What [get_pet] can return: Python's [None] or one of the objects. *)
Inductive val : Type :=
| VNone
| VObj (o : obj).

(** The dict literal, evaluated afresh by each call. *)
Definition pets : gmap string val :=
  <["cat" := VObj (new Cat (AStr "Tom"))]>
    (<["dog" := VObj (new Dog (AStr "Jimmy"))]> ∅).

Definition get_pet (pet : key) : res val :=
  dict_get pets pet VNone.

(** The parameter's default, used by the call [get_pet()]. *)
Definition pet_default : key := KAtom (AStr "dog").

(** [v.speak()] on what [get_pet] returned. *)
Definition call_speak (v : val) : res string :=
  match v with
  | VObj o => speak o
  | VNone => Raise AttributeError
  end.

End DictLookup.

(** *** Third part: lookup with a default product (lines 126-145)

    The name [Pet] is rebound at line 126 and stays so. *)
Module DefaultSentinel.

Record Pet : Type := new { name : atom; sound : atom }.

Definition speak (self : Pet) : res atom := Ret (sound self).

Definition pets : gmap string Pet :=
  <["cat" := new (AStr "Tom") (AStr "Meow!")]>
    (<["dog" := new (AStr "Jimmy") (AStr "woof!")]> ∅).

Definition get_pet (pet_type : key) : res Pet :=
  dict_get pets pet_type (new (AStr "Unknown") (AStr "Silent")).

Definition pet_type_default : key := KAtom (AStr "dog").

End DefaultSentinel.

End Factory.

(** ** Abstract_Factory/abstract__factory.py *)

Module AbstractFactory.

Inductive cls : Type :=
| Dog | Cat | FriendlyDog | GuardDog | FriendlyCat | GuardCat.

Definition mro (c : cls) : list cls :=
  match c with
  | Dog => [Dog]
  | Cat => [Cat]
  | FriendlyDog => [FriendlyDog; Dog]
  | GuardDog => [GuardDog; Dog]
  | FriendlyCat => [FriendlyCat; Cat]
  | GuardCat => [GuardCat; Cat]
  end.

Record obj : Type := Obj {
  class : cls;
  name : atom;
  breed : atom;
  age : atom
}.

(** [Dog.__init__] and [Cat.__init__] have the same body; the concrete
    products inherit them. *)
Definition new (c : cls) (name breed age : atom) : obj :=
  Obj c name breed age.

Definition sentence (opening : string) (self : obj) : string :=
  opening +:+ " I'm " +:+ str (name self) +:+ ", a " +:+ str (age self)
  +:+ "-year-old " +:+ str (breed self) +:+ ".".

Definition own_speak (c : cls) : option (obj → res string) :=
  match c with
  | Dog => Some (λ _, Raise NotImplementedError)
  | Cat => Some (λ _, Raise NotImplementedError)
  | FriendlyDog => Some (λ self, Ret (sentence "woof, I love you!" self))
  | GuardDog => Some (λ self, Ret (sentence "woof, stay back!" self))
  | FriendlyCat => Some (λ self, Ret (sentence "meow, purr." self))
  | GuardCat => Some (λ self, Ret (sentence "meow, beware!" self))
  end.

Definition speak (self : obj) : res string :=
  match resolve own_speak (mro (class self)) with
  | Some m => m self
  | None => Raise AttributeError
  end.

Inductive factory : Type := PetFactory | FriendlyPetFactory | GuardPetFactory.

Definition factory_mro (f : factory) : list factory :=
  match f with
  | PetFactory => [PetFactory]
  | FriendlyPetFactory => [FriendlyPetFactory; PetFactory]
  | GuardPetFactory => [GuardPetFactory; PetFactory]
  end.

Definition own_create_dog (f : factory) : option (res obj) :=
  match f with
  | PetFactory => Some (Raise NotImplementedError)
  | FriendlyPetFactory =>
      Some (Ret (new FriendlyDog (AStr "Jimmy") (AStr "Golden Retriever")
                   (AInt 2)))
  | GuardPetFactory =>
      Some (Ret (new GuardDog (AStr "Rex") (AStr "German Shepherd") (AInt 4)))
  end.

Definition own_create_cat (f : factory) : option (res obj) :=
  match f with
  | PetFactory => Some (Raise NotImplementedError)
  | FriendlyPetFactory =>
      Some (Ret (new FriendlyCat (AStr "Tom") (AStr "Persian") (AInt 3)))
  | GuardPetFactory =>
      Some (Ret (new GuardCat (AStr "Whiskers") (AStr "Siamese") (AInt 5)))
  end.

Definition create_dog (self : factory) : res obj :=
  match resolve own_create_dog (factory_mro self) with
  | Some m => m
  | None => Raise AttributeError
  end.

Definition create_cat (self : factory) : res obj :=
  match resolve own_create_cat (factory_mro self) with
  | Some m => m
  | None => Raise AttributeError
  end.

(** The client: [dog] first, then [cat]; a raise in either propagates. *)
Definition get_pet (factory : factory) : res (obj * obj) :=
  match create_dog factory with
  | Raise e => Raise e
  | Ret dog =>
      match create_cat factory with
      | Raise e => Raise e
      | Ret cat => Ret (dog, cat)
      end
  end.

(** The two families of the script, and the family a class is named for. *)
Inductive family : Type := Friendly | Guard.

Definition family_of_factory (f : factory) : option family :=
  match f with
  | PetFactory => None
  | FriendlyPetFactory => Some Friendly
  | GuardPetFactory => Some Guard
  end.

Definition family_of_product (c : cls) : option family :=
  match c with
  | Dog | Cat => None
  | FriendlyDog | FriendlyCat => Some Friendly
  | GuardDog | GuardCat => Some Guard
  end.

(** The two creation requests a client can make of a factory. *)
Inductive kind : Type := KDog | KCat.

Definition create (self : factory) (k : kind) : res obj :=
  match k with
  | KDog => create_dog self
  | KCat => create_cat self
  end.

End AbstractFactory.

(** ** Builder/builder.py *)

Module Builder.

Inductive cls : Type := House | HouseBuilder.

(** Both classes carry the same five attributes. *)
Record obj : Type := Obj {
  class : cls;
  foundation : atom;
  structure : atom;
  roof : atom;
  has_garage : atom;
  has_swimming_pool : atom
}.

Definition set_has_garage (v : atom) (o : obj) : obj :=
  Obj (class o) (foundation o) (structure o) (roof o) v (has_swimming_pool o).

Definition set_has_swimming_pool (v : atom) (o : obj) : obj :=
  Obj (class o) (foundation o) (structure o) (roof o) (has_garage o) v.

(** Objects live in a heap; a reference is an index into it.  Nothing is
    ever freed, so a reference a client holds always resolves; [load]
    answers a reference that does not with a raise. *)
Abbreviation loc := nat (only parsing).
Abbreviation heap := (list obj) (only parsing).

Definition alloc (o : obj) : M heap loc :=
  λ h, (Ret (length h), h ++ [o]).

Definition load (l : loc) : M heap obj :=
  λ h, match h !! l with
       | Some o => (Ret o, h)
       | None => (Raise AttributeError, h)
       end.

Definition store (l : loc) (o : obj) : M heap unit :=
  modify (λ h, <[l := o]> h).

(** [House(foundation, structure, roof, has_garage=False,
    has_swimming_pool=False)]: an omitted argument is [None] here. *)
Definition House_new (foundation structure roof : atom)
    (has_garage has_swimming_pool : option atom) : M heap loc :=
  alloc (Obj House foundation structure roof
           (default (ABool false) has_garage)
           (default (ABool false) has_swimming_pool)).

(** [House.__str__] *)
Definition House_str (self : obj) : string :=
  ("House with " +:+ str (foundation self) +:+ " foundation, "
   +:+ str (structure self) +:+ " structure, " +:+ str (roof self) +:+ " roof")
  +:+ (if truthy (has_garage self) then ", a garage" else "")
  +:+ (if truthy (has_swimming_pool self) then ", and a swimming pool" else "").

(** [HouseBuilder(foundation, structure, roof)] *)
Definition HouseBuilder_new (foundation structure roof : atom) : M heap loc :=
  alloc (Obj HouseBuilder foundation structure roof (ABool false) (ABool false)).

(** The methods [HouseBuilder] defines; [House] has none of them, so
    looking one up on a house raises. *)
Definition add_garage (self : loc) (has_garage : atom) : M heap loc :=
  (let* o := load self in
   match class o with
   | HouseBuilder => do store self (set_has_garage has_garage o) then ret self
   | House => throw AttributeError
   end)%py.

Definition add_swimming_pool (self : loc) (has_swimming_pool : atom)
    : M heap loc :=
  (let* o := load self in
   match class o with
   | HouseBuilder =>
       do store self (set_has_swimming_pool has_swimming_pool o) then ret self
   | House => throw AttributeError
   end)%py.

(** What [build()] hands to [House]: the builder's five fields. *)
Definition snapshot (o : obj) : obj :=
  Obj House (foundation o) (structure o) (roof o) (has_garage o)
    (has_swimming_pool o).

Definition build (self : loc) : M heap loc :=
  (let* o := load self in
   match class o with
   | HouseBuilder =>
       House_new (foundation o) (structure o) (roof o)
         (Some (has_garage o)) (Some (has_swimming_pool o))
   | House => throw AttributeError
   end)%py.

(** The chained expression
    [builder.add_garage(g).add_swimming_pool(p).build()]. *)
Definition chain_garage_pool (builder : loc) (g p : atom) : M heap loc :=
  (let* b1 := add_garage builder g in
   let* b2 := add_swimming_pool b1 p in
   build b2)%py.

(** [builder.add_garage(g1).add_garage(g2).build()] *)
Definition chain_garage_twice (builder : loc) (g1 g2 : atom) : M heap loc :=
  (let* b1 := add_garage builder g1 in
   let* b2 := add_garage b1 g2 in
   build b2)%py.

(** The usage lines 57-58. *)
Definition usage : M heap loc :=
  (let* builder := HouseBuilder_new (AStr "concrete") (AStr "wood")
                     (AStr "shingles") in
   chain_garage_pool builder (ABool true) (ABool true))%py.

(** A client that goes on with the builder once it has built a house:
    a step, then a second [build()]. *)
Definition build_step_build (builder : loc) (g : atom)
    : M heap (loc * loc * loc) :=
  (let* house1 := build builder in
   let* b := add_garage builder g in
   let* house2 := build b in
   ret (house1, b, house2))%py.

(** The method calls a client can make on a reference. *)
Inductive request : Type :=
| AddGarage (self : loc) (has_garage : atom)
| AddSwimmingPool (self : loc) (has_swimming_pool : atom)
| Build (self : loc).

Definition perform (r : request) : M heap loc :=
  match r with
  | AddGarage self v => add_garage self v
  | AddSwimmingPool self v => add_swimming_pool self v
  | Build self => build self
  end.

(** A client making the requests in order, going on after a raise; the
    heap it leaves. *)
Fixpoint perform_all (rs : list request) (h : heap) : heap :=
  match rs with
  | [] => h
  | r :: rest => perform_all rest (perform r h).2
  end.

End Builder.

(** ** Singleton_Pattern/singleton_pattern.py *)

Module SingletonPattern.

Abbreviation loc := nat (only parsing).
Abbreviation dref := nat (only parsing).

(** Values stored in attributes: atoms and references to dicts. *)
Inductive val : Type :=
| VAtom (a : atom)
| VDict (d : dref).

Inductive cls : Type := Singleton | Borg | Singleton1.

#[global] Instance cls_eq_dec : EqDecision cls.
Proof. solve_decision. Defined.

Definition mro (c : cls) : list cls :=
  match c with
  | Singleton => [Singleton]
  | Borg => [Borg]
  | Singleton1 => [Singleton1; Borg]
  end.

(** [isinstance(o, c)] for an object of class [c']: [c] is in the MRO
    of [c']. *)
Definition subclass (c' c : cls) : bool := bool_decide (c ∈ mro c').

(** Which classes define [__new__] and [__init__] in their body. *)
Definition own_new (c : cls) : option unit :=
  match c with
  | Singleton => Some tt
  | Borg | Singleton1 => None
  end.

Definition own_init (c : cls) : option unit :=
  match c with
  | Singleton => None
  | Borg | Singleton1 => Some tt
  end.

Definition overrides_new (c : cls) : bool :=
  match resolve own_new (mro c) with
  | Some _ => true
  | None => false
  end.

Definition overrides_init (c : cls) : bool :=
  match resolve own_init (mro c) with
  | Some _ => true
  | None => false
  end.

(** An instance: its class and the dict its [__dict__] refers to. *)
Record obj : Type := Obj { class : cls; dict : dref }.

(** The store: the objects, the dicts, and the two class attributes
    [Singleton._instance] and [Borg._shared_state]. *)
Record store : Type := Store {
  objs : list obj;
  dicts : list (gmap string val);
  Singleton_instance : option loc;
  Borg_shared_state : dref
}.

(** The store once the class statements have run: [_instance = None] and
    [_shared_state = {}]. *)
Definition init : store := Store [] [∅] None 0.

Definition set_objs (f : list obj → list obj) (s : store) : store :=
  Store (f (objs s)) (dicts s) (Singleton_instance s) (Borg_shared_state s).
Definition set_dicts (f : list (gmap string val) → list (gmap string val))
    (s : store) : store :=
  Store (objs s) (f (dicts s)) (Singleton_instance s) (Borg_shared_state s).
Definition set_Singleton_instance (v : option loc) (s : store) : store :=
  Store (objs s) (dicts s) v (Borg_shared_state s).

(** Arguments beyond the class or the instance itself. *)
Definition excess_args (args : list val) (kwargs : gmap string val) : bool :=
  negb (length args + size kwargs =? 0).

(** A new object of class [c], with a new empty dict as its [__dict__]. *)
Definition allocate (c : cls) (s : store) : store :=
  set_objs (λ os, os ++ [Obj c (length (dicts s))])
    (set_dicts (λ ds, ds ++ [∅]) s).

(** [object.__new__(cls, *args, **kwargs)]: refuses extra arguments when
    the class overrides [__new__], or overrides neither [__new__] nor
    [__init__]; otherwise a new object with an empty [__dict__]. *)
Definition object_new (c : cls) (args : list val) (kwargs : gmap string val)
    : M store loc :=
  if excess_args args kwargs && overrides_new c then throw TypeError
  else if excess_args args kwargs && negb (overrides_init c) then
    throw TypeError
  else λ s, (Ret (length (objs s)), allocate c s).

(** [object.__init__(self, *args, **kwargs)]: refuses extra arguments when
    the class overrides [__init__], or overrides neither method. *)
Definition object_init (c : cls) (args : list val) (kwargs : gmap string val)
    : M store unit :=
  if excess_args args kwargs && overrides_init c then throw TypeError
  else if excess_args args kwargs && negb (overrides_new c) then
    throw TypeError
  else ret tt.

(** Truth value of [cls._instance]: [None] is false; an instance of
    [Singleton], which defines neither [__bool__] nor [__len__], is true. *)
Definition truthy_instance (v : option loc) : bool :=
  match v with
  | None => false
  | Some _ => true
  end.

(** Binding the arguments of a call to a function whose parameters are
    one positional name and the keyword catch-all: a keyword argument of
    that name would give the parameter a second value. *)
Definition bind_params {S} (param : string) (kwargs : gmap string val)
    : M S unit :=
  match kwargs !! param with
  | Some _ => throw TypeError
  | None => ret tt
  end.

(** [Singleton.__new__(cls, *args, **kwargs)] with [cls = Singleton]. *)
Definition Singleton___new__ (args : list val) (kwargs : gmap string val)
    : M store (option loc) :=
  (do bind_params "cls" kwargs then
   let* cur := gets Singleton_instance in
   do (if negb (truthy_instance cur) then
         let* l := object_new Singleton args kwargs in
         modify (set_Singleton_instance (Some l))
       else ret tt) then
   gets Singleton_instance)%py.

(** Calling the class [Singleton] with [args] and [kwargs]: [__new__],
    then, when the result is an instance of the class, the [__init__] of
    its class, which is the inherited [object.__init__]. *)
Definition Singleton_call (args : list val) (kwargs : gmap string val)
    : M store (option loc) :=
  (let* r := Singleton___new__ args kwargs in
   match r with
   | None => ret r
   | Some l =>
       let* found := gets (λ s, objs s !! l) in
       match found with
       | None => ret r
       | Some o =>
           if subclass (class o) Singleton then
             do object_init (class o) args kwargs then ret r
           else ret r
       end
   end)%py.

(** The attributes a class body binds, as values.  ([_instance], which
    holds an object, is the store field [Singleton_instance].) *)
Definition own_attr (s : store) (a : string) (c : cls) : option val :=
  match c with
  | Borg => if String.eqb a "_shared_state"
            then Some (VDict (Borg_shared_state s)) else None
  | Singleton | Singleton1 => None
  end.

(** [self.a]: the instance's [__dict__] first, then the classes of the
    MRO (none of the attributes modelled is a data descriptor). *)
Definition getattr (self : loc) (a : string) : M store val :=
  λ s, match objs s !! self with
       | None => (Raise AttributeError, s)
       | Some o =>
           match dicts s !! dict o ≫= (λ d, d !! a) with
           | Some v => (Ret v, s)
           | None =>
               match resolve (own_attr s a) (mro (class o)) with
               | Some v => (Ret v, s)
               | None => (Raise AttributeError, s)
               end
           end
       end.

(** [self.__dict__ = v]: only a dict is accepted. *)
Definition set___dict__ (self : loc) (v : val) : M store unit :=
  match v with
  | VDict d =>
      modify (set_objs (λ os, alter (λ o, Obj (class o) d) self os))
  | VAtom _ => throw TypeError
  end.

(** [v.update(kwargs)]: defined for a dict, where the given entries
    replace or extend the old ones (a reference to no dict, which no run
    produces, is left alone); an atom has no such attribute. *)
Definition call_update (v : val) (kwargs : gmap string val) : M store unit :=
  match v with
  | VDict d => modify (set_dicts (λ ds, alter (λ old, kwargs ∪ old) d ds))
  | VAtom _ => throw AttributeError
  end.

(** [Borg.__init__(self)] *)
Definition Borg___init__ (self : loc) : M store unit :=
  (let* shared := getattr self "_shared_state" in
   set___dict__ self shared)%py.

(** [Singleton1.__init__(self, **kwargs)] *)
Definition Singleton1___init__ (self : loc) (kwargs : gmap string val)
    : M store unit :=
  (do bind_params "self" kwargs then
   do Borg___init__ self then
   let* shared := getattr self "_shared_state" in
   call_update shared kwargs)%py.

(** Calling the classes: [Borg] without arguments, [Singleton1] with
    keyword arguments only. *)
Definition Borg_call : M store loc :=
  (let* l := object_new Borg [] ∅ in
   do Borg___init__ l then
   ret l)%py.

Definition Singleton1_call (kwargs : gmap string val) : M store loc :=
  (let* l := object_new Singleton1 [] kwargs in
   do Singleton1___init__ l kwargs then
   ret l)%py.

(** What an instance shows: the mapping behind its [__dict__]. *)
Definition vars (self : loc) (s : store) : option (gmap string val) :=
  objs s !! self ≫= (λ o, dicts s !! dict o).

(** [n] calls [Singleton()] in a row, with their results in order. *)
Fixpoint Singleton_calls (n : nat) : M store (list (option loc)) :=
  match n with
  | O => ret []
  | S n' =>
      (let* r := Singleton_call [] ∅ in
       let* rs := Singleton_calls n' in
       ret (r :: rs))%py
  end.

(** The usage lines 53-54. *)
Definition usage_borg : M store (loc * loc) :=
  (let* singleton1 := Singleton1_call
        (<["b" := VAtom (AInt 2)]> (<["a" := VAtom (AInt 1)]> ∅)) in
   let* singleton2 := Singleton1_call (<["c" := VAtom (AInt 3)]> ∅) in
   ret (singleton1, singleton2))%py.

(** The calls a client can make of the three classes. *)
Inductive call : Type :=
| CallSingleton (args : list val) (kwargs : gmap string val)
| CallBorg
| CallSingleton1 (kwargs : gmap string val).

Definition perform (c : call) : M store (option loc) :=
  match c with
  | CallSingleton args kwargs => Singleton_call args kwargs
  | CallBorg => (let* l := Borg_call in ret (Some l))%py
  | CallSingleton1 kwargs =>
      (let* l := Singleton1_call kwargs in ret (Some l))%py
  end.

(** A client making the calls in order, going on after a raise; the
    store it leaves. *)
Fixpoint perform_all (cs : list call) (s : store) : store :=
  match cs with
  | [] => s
  | c :: rest => perform_all rest (perform c s).2
  end.

(** The objects of class [Singleton] in the store. *)
Definition Singleton_objs (s : store) : list obj :=
  filter (λ o, class o = Singleton) (objs s).

(** No reference dangles: the shared dict and every [__dict__] exist, and
    [_instance], once set, refers to an object of class [Singleton]. *)
Definition wf (s : store) : Prop :=
  Borg_shared_state s < length (dicts s)
  ∧ (∀ l o, objs s !! l = Some o → dict o < length (dicts s))
  ∧ (∀ l, Singleton_instance s = Some l →
       ∃ d, objs s !! l = Some (Obj Singleton d)).

End SingletonPattern.

(** * Properties *)

(** ** The prelude *)

Section Prelude.
Context {S A B : Type}.

Lemma bind_ret (a : A) (k : A → M S B) (s : S) : bind (ret a) k s = k a s.
Proof. reflexivity. Qed.

Lemma bind_throw (e : exn) (k : A → M S B) (s : S) :
  bind (throw e) k s = (Raise e, s).
Proof. reflexivity. Qed.

Lemma bind_returns (m : M S A) (k : A → M S B) (s s' : S) (a : A) :
  m s = (Ret a, s') → bind m k s = k a s'.
Proof. intros Hm. unfold bind. by rewrite Hm. Qed.

Lemma bind_raises (m : M S A) (k : A → M S B) (s s' : S) (e : exn) :
  m s = (Raise e, s') → bind m k s = (Raise e, s').
Proof. intros Hm. unfold bind. by rewrite Hm. Qed.

Lemma returns_not_raises (r : res A) : returns r → ¬ raises r.
Proof. intros [a ->] [e He]. discriminate. Qed.

Lemma dict_get_hit {V} (d : gmap string V) (k : key) (v dflt : V) :
  dict_lookup d k = Some v → dict_get d k dflt = Ret v.
Proof.
  intros H. unfold dict_get. rewrite H.
  destruct (hashable k) eqn:Hk; [done|].
  destruct k as [a|items|items]; simpl in *; discriminate.
Qed.

Lemma dict_get_miss {V} (d : gmap string V) (k : key) (dflt : V) :
  hashable k = true → dict_lookup d k = None → dict_get d k dflt = Ret dflt.
Proof. intros Hk H. unfold dict_get. by rewrite Hk, H. Qed.

Lemma dict_get_unhashable {V} (d : gmap string V) (k : key) (dflt : V) :
  hashable k = false → dict_get d k dflt = Raise TypeError.
Proof. intros Hk. unfold dict_get. by rewrite Hk. Qed.

(** [d.get] raises nothing but the [TypeError] of an unhashable key. *)
Lemma dict_get_raises {V} (d : gmap string V) (k : key) (dflt : V) (e : exn) :
  dict_get d k dflt = Raise e → e = TypeError ∧ hashable k = false.
Proof.
  unfold dict_get. destruct (hashable k); [|by intros [= <-]].
  by destruct (dict_lookup d k).
Qed.

Lemma dict_get_returns {V} (d : gmap string V) (k : key) (dflt : V) :
  hashable k = true → returns (dict_get d k dflt).
Proof.
  intros Hk. unfold dict_get. rewrite Hk.
  destruct (dict_lookup d k); by eexists.
Qed.
End Prelude.

(** ** Factory/factory.py *)

Section FactoryLookup.
Import Factory.

(** Both dict literals bind exactly the keys "dog" and "cat". *)
Lemma table_keys {V} (dog cat : V) (k : key) :
  dict_lookup (<["cat" := cat]> (<["dog" := dog]> ∅)) k = None
  ↔ k ≠ KAtom (AStr "dog") ∧ k ≠ KAtom (AStr "cat").
Proof.
  destruct k as [[| | |k]|items|items]; simpl; try by (split; [split|]).
  split.
  - intros H. split; intros [= ->]; discriminate H.
  - intros [Hd Hc]. rewrite !lookup_insert_ne, lookup_empty; congruence.
Qed.

Lemma DictLookup_pets_keys (k : key) :
  dict_lookup DictLookup.pets k = None
  ↔ k ≠ KAtom (AStr "dog") ∧ k ≠ KAtom (AStr "cat").
Proof. apply table_keys. Qed.

Lemma DefaultSentinel_pets_keys (k : key) :
  dict_lookup DefaultSentinel.pets k = None
  ↔ k ≠ KAtom (AStr "dog") ∧ k ≠ KAtom (AStr "cat").
Proof. apply table_keys. Qed.

Lemma DictLookup_get_pet_hit (k : key) (v : DictLookup.val) :
  dict_lookup DictLookup.pets k = Some v → DictLookup.get_pet k = Ret v.
Proof. apply dict_get_hit. Qed.

Lemma DictLookup_get_pet_miss (k : key) :
  hashable k = true →
  dict_lookup DictLookup.pets k = None →
  DictLookup.get_pet k = Ret DictLookup.VNone.
Proof. apply dict_get_miss. Qed.

Lemma DefaultSentinel_get_pet_hit (k : key) (p : DefaultSentinel.Pet) :
  dict_lookup DefaultSentinel.pets k = Some p →
  DefaultSentinel.get_pet k = Ret p.
Proof. apply dict_get_hit. Qed.

Lemma DefaultSentinel_get_pet_miss (k : key) :
  hashable k = true →
  dict_lookup DefaultSentinel.pets k = None →
  DefaultSentinel.get_pet k =
    Ret (DefaultSentinel.new (AStr "Unknown") (AStr "Silent")).
Proof. apply dict_get_miss. Qed.

(** A hashable key is answered; an unhashable one raises [TypeError],
    the only exception either lookup can raise. *)
Lemma DictLookup_get_pet_returns (k : key) :
  hashable k = true → returns (DictLookup.get_pet k).
Proof. apply dict_get_returns. Qed.

Lemma DefaultSentinel_get_pet_returns (k : key) :
  hashable k = true → returns (DefaultSentinel.get_pet k).
Proof. apply dict_get_returns. Qed.

Lemma DictLookup_get_pet_raises (k : key) (e : exn) :
  DictLookup.get_pet k = Raise e → e = TypeError ∧ hashable k = false.
Proof. apply dict_get_raises. Qed.

Lemma DefaultSentinel_get_pet_raises (k : key) (e : exn) :
  DefaultSentinel.get_pet k = Raise e → e = TypeError ∧ hashable k = false.
Proof. apply dict_get_raises. Qed.

(** What the creators return under given bindings of [Dog] and [Cat]. *)
Lemma DogFactory_get_pet (g : globals) :
  FactoryMethod.get_pet g FactoryMethod.DogFactory =
    FactoryMethod.construct (Dog_bound g) FactoryMethod.Dog (AStr "Jimmy")
      (AStr "Golden Retriever") (AInt 2).
Proof. reflexivity. Qed.

Lemma CatFactory_get_pet (g : globals) :
  FactoryMethod.get_pet g FactoryMethod.CatFactory =
    FactoryMethod.construct (Cat_bound g) FactoryMethod.Cat (AStr "Tom")
      (AStr "Persian") (AInt 3).
Proof. reflexivity. Qed.

(** The printed lines of the script, as its comments give them; the last
    two lines say what the same calls do on the loaded module. *)
Example display_pet_output :
  FactoryMethod.display_pet globals_at_line_86 FactoryMethod.DogFactory [] =
    (Ret tt,
     ["The pet says: woof! I'm Jimmy, a 2-year-old Golden Retriever."])
  ∧ FactoryMethod.display_pet globals_at_line_86 FactoryMethod.CatFactory [] =
    (Ret tt, ["The pet says: meow! I'm Tom, a 3-year-old Persian."])
  ∧ FactoryMethod.display_pet globals_loaded FactoryMethod.DogFactory [] =
    (Raise TypeError, [])
  ∧ FactoryMethod.display_pet globals_loaded FactoryMethod.CatFactory [] =
    (Raise TypeError, []).
Proof. by repeat split. Qed.

Example lookup_script_output :
  ∃ d c, DictLookup.get_pet DictLookup.pet_default = Ret d
    ∧ DictLookup.get_pet (KAtom (AStr "cat")) = Ret c
    ∧ DictLookup.call_speak d = Ret "woof!"
    ∧ DictLookup.call_speak c = Ret "Meow!".
Proof. by do 2 eexists. Qed.

End FactoryLookup.

Section FactoryClaims.
Import Factory.

(** C1: every key the lookup tables bind resolves to the product that
    the bound constructor call built -- "dog" to [Dog("Jimmy")] and "cat"
    to [Cat("Tom")] in the dict variant, likewise in the default-product
    variant -- and each concrete creator returns exactly what the call of
    the class bound to [Dog] or [Cat] returns: the product, while the
    names are bound to the subclasses of [Pet]. *)
Theorem factory_lookup_returns_registered_product :
  (∀ k v, DictLookup.pets !! k = Some v →
     DictLookup.get_pet (KAtom (AStr k)) = Ret v)
  ∧ DictLookup.get_pet (KAtom (AStr "dog")) =
      Ret (DictLookup.VObj (DictLookup.new DictLookup.Dog (AStr "Jimmy")))
  ∧ DictLookup.get_pet (KAtom (AStr "cat")) =
      Ret (DictLookup.VObj (DictLookup.new DictLookup.Cat (AStr "Tom")))
  ∧ DictLookup.get_pet DictLookup.pet_default =
      DictLookup.get_pet (KAtom (AStr "dog"))
  ∧ (∀ k p, DefaultSentinel.pets !! k = Some p →
       DefaultSentinel.get_pet (KAtom (AStr k)) = Ret p)
  ∧ DefaultSentinel.get_pet (KAtom (AStr "dog")) =
      Ret (DefaultSentinel.new (AStr "Jimmy") (AStr "woof!"))
  ∧ DefaultSentinel.get_pet (KAtom (AStr "cat")) =
      Ret (DefaultSentinel.new (AStr "Tom") (AStr "Meow!"))
  ∧ (∀ g, FactoryMethod.get_pet g FactoryMethod.DogFactory =
            FactoryMethod.construct (Dog_bound g) FactoryMethod.Dog
              (AStr "Jimmy") (AStr "Golden Retriever") (AInt 2))
  ∧ (∀ g, FactoryMethod.get_pet g FactoryMethod.CatFactory =
            FactoryMethod.construct (Cat_bound g) FactoryMethod.Cat
              (AStr "Tom") (AStr "Persian") (AInt 3))
  ∧ FactoryMethod.get_pet globals_at_line_86 FactoryMethod.DogFactory =
      Ret (FactoryMethod.new FactoryMethod.Dog (AStr "Jimmy")
             (AStr "Golden Retriever") (AInt 2))
  ∧ FactoryMethod.get_pet globals_at_line_86 FactoryMethod.CatFactory =
      Ret (FactoryMethod.new FactoryMethod.Cat (AStr "Tom") (AStr "Persian")
             (AInt 3)).
Proof.
  split; [intros k v; exact (DictLookup_get_pet_hit (KAtom (AStr k)) v)|].
  do 3 (split; [reflexivity|]).
  split;
    [intros k p; exact (DefaultSentinel_get_pet_hit (KAtom (AStr k)) p)|].
  do 2 (split; [reflexivity|]).
  split; [exact DogFactory_get_pet|].
  split; [exact CatFactory_get_pet|].
  by split.
Qed.

(** C2, as the code has it: a hashable key that the table does not bind
    makes the dict variant return [None] and the default-product variant
    return the product [Pet("Unknown", "Silent")], and neither raises.
    The one error either lookup lets through is the [TypeError] of an
    unhashable key. *)
Theorem unregistered_key_returns_default (k : key) :
  hashable k = true →
  dict_lookup DictLookup.pets k = None →
  DictLookup.get_pet k = Ret DictLookup.VNone
  ∧ ¬ raises (DictLookup.get_pet k)
  ∧ dict_lookup DefaultSentinel.pets k = None
  ∧ DefaultSentinel.get_pet k =
      Ret (DefaultSentinel.new (AStr "Unknown") (AStr "Silent"))
  ∧ ¬ raises (DefaultSentinel.get_pet k)
  ∧ (∀ k' e, DictLookup.get_pet k' = Raise e ∨
              DefaultSentinel.get_pet k' = Raise e →
       e = TypeError ∧ hashable k' = false)
  ∧ (∀ k', hashable k' = false →
       DictLookup.get_pet k' = Raise TypeError
       ∧ DefaultSentinel.get_pet k' = Raise TypeError).
Proof.
  intros Hhash Hmiss.
  assert (dict_lookup DefaultSentinel.pets k = None) as Hmiss'.
  { apply DefaultSentinel_pets_keys. by apply DictLookup_pets_keys. }
  split; [by apply DictLookup_get_pet_miss|].
  split; [by apply returns_not_raises, DictLookup_get_pet_returns|].
  split; [done|].
  split; [by apply DefaultSentinel_get_pet_miss|].
  split; [by apply returns_not_raises, DefaultSentinel_get_pet_returns|].
  split.
  - intros k' e [He|He].
    + by apply (DictLookup_get_pet_raises k').
    + by apply (DefaultSentinel_get_pet_raises k').
  - intros k' Hk'. split; by apply dict_get_unhashable.
Qed.

Lemma unregistered_key_returns_default_witness :
  DictLookup.get_pet (KAtom (AStr "bird")) = Ret DictLookup.VNone
  ∧ ¬ raises (DictLookup.get_pet (KAtom (AStr "bird")))
  ∧ dict_lookup DefaultSentinel.pets (KAtom (AStr "bird")) = None
  ∧ DefaultSentinel.get_pet (KAtom (AStr "bird")) =
      Ret (DefaultSentinel.new (AStr "Unknown") (AStr "Silent"))
  ∧ ¬ raises (DefaultSentinel.get_pet (KAtom (AStr "bird")))
  ∧ (∀ k' e, DictLookup.get_pet k' = Raise e ∨
              DefaultSentinel.get_pet k' = Raise e →
       e = TypeError ∧ hashable k' = false)
  ∧ (∀ k', hashable k' = false →
       DictLookup.get_pet k' = Raise TypeError
       ∧ DefaultSentinel.get_pet k' = Raise TypeError).
Proof.
  apply (unregistered_key_returns_default (KAtom (AStr "bird")));
    reflexivity.
Defined.

(** C2, as stated, fails at the key "bird": it is bound in neither table,
    yet the dict variant raises nothing, and the default-product variant
    answers with a product made up on the spot. *)
Lemma unregistered_key_does_not_raise :
  DictLookup.pets !! "bird" = None
  ∧ DefaultSentinel.pets !! "bird" = None
  ∧ ¬ raises (DictLookup.get_pet (KAtom (AStr "bird")))
  ∧ ¬ raises (DefaultSentinel.get_pet (KAtom (AStr "bird")))
  ∧ DefaultSentinel.get_pet (KAtom (AStr "bird")) =
      Ret (DefaultSentinel.new (AStr "Unknown") (AStr "Silent")).
Proof.
  do 2 (split; [reflexivity|]).
  split; [by apply returns_not_raises, DictLookup_get_pet_returns|].
  split; [by apply returns_not_raises, DefaultSentinel_get_pet_returns|].
  reflexivity.
Qed.

(** C10, as the code has it: for a hashable key other than "dog" and
    "cat" -- a string or not -- the dict variant returns [None]; the
    default-product variant returns a [Pet] named "Unknown" whose
    [speak()] returns "Silent"; and neither variant raises on any
    hashable key.  On an unhashable key both raise [TypeError]. *)
Theorem factory_lookup_miss_behaviour (k : key) :
  hashable k = true →
  k ≠ KAtom (AStr "dog") → k ≠ KAtom (AStr "cat") →
  DictLookup.get_pet k = Ret DictLookup.VNone
  ∧ (∃ p, DefaultSentinel.get_pet k = Ret p
       ∧ DefaultSentinel.name p = AStr "Unknown"
       ∧ DefaultSentinel.speak p = Ret (AStr "Silent"))
  ∧ (∀ k', hashable k' = true →
       returns (DictLookup.get_pet k')
       ∧ returns (DefaultSentinel.get_pet k'))
  ∧ (∀ k', hashable k' = false →
       DictLookup.get_pet k' = Raise TypeError
       ∧ DefaultSentinel.get_pet k' = Raise TypeError).
Proof.
  intros Hhash Hdog Hcat.
  split; [|split; [|split]].
  - apply DictLookup_get_pet_miss; [done|]. by apply DictLookup_pets_keys.
  - exists (DefaultSentinel.new (AStr "Unknown") (AStr "Silent")).
    split; [|split; reflexivity].
    apply DefaultSentinel_get_pet_miss; [done|].
    by apply DefaultSentinel_pets_keys.
  - intros k' Hk'. split.
    + by apply DictLookup_get_pet_returns.
    + by apply DefaultSentinel_get_pet_returns.
  - intros k' Hk'. split; by apply dict_get_unhashable.
Qed.

Lemma factory_lookup_miss_behaviour_witness :
  DictLookup.get_pet (KTuple [KAtom (AStr "dog"); KAtom (AInt 1)]) =
    Ret DictLookup.VNone
  ∧ (∃ p, DefaultSentinel.get_pet
            (KTuple [KAtom (AStr "dog"); KAtom (AInt 1)]) = Ret p
       ∧ DefaultSentinel.name p = AStr "Unknown"
       ∧ DefaultSentinel.speak p = Ret (AStr "Silent"))
  ∧ (∀ k', hashable k' = true →
       returns (DictLookup.get_pet k')
       ∧ returns (DefaultSentinel.get_pet k'))
  ∧ (∀ k', hashable k' = false →
       DictLookup.get_pet k' = Raise TypeError
       ∧ DefaultSentinel.get_pet k' = Raise TypeError).
Proof.
  apply (factory_lookup_miss_behaviour
           (KTuple [KAtom (AStr "dog"); KAtom (AInt 1)]));
    [reflexivity|discriminate|discriminate].
Defined.

(** C10, as stated, fails at the empty list, a key other than "dog" and
    "cat": it cannot be hashed, so both variants raise [TypeError]. *)
Lemma lookup_of_unhashable_key_raises :
  KList [] ≠ KAtom (AStr "dog") ∧ KList [] ≠ KAtom (AStr "cat")
  ∧ DictLookup.get_pet (KList []) = Raise TypeError
  ∧ DefaultSentinel.get_pet (KList []) = Raise TypeError
  ∧ DictLookup.get_pet (KList []) ≠ Ret DictLookup.VNone
  ∧ raises (DictLookup.get_pet (KList []))
  ∧ raises (DefaultSentinel.get_pet (KList [])).
Proof.
  do 2 (split; [discriminate|]). do 2 (split; [reflexivity|]).
  split; [discriminate|]. split; by exists TypeError.
Qed.

End FactoryClaims.

(** ** Abstract_Factory/abstract__factory.py *)

Section AbstractFactoryClaims.
Import AbstractFactory.

(** A concrete factory creates, for either kind, a product of its own
    family. *)
Lemma create_in_family (f : factory) (fam : family) (k : kind) :
  family_of_factory f = Some fam →
  ∃ o, create f k = Ret o ∧ family_of_product (class o) = Some fam.
Proof.
  destruct f, k; intros [= <-]; by eexists.
Qed.

(** The script's printed lines, as its comments give them. *)
Example abstract_factory_output :
  ∃ fd fc gd gc,
    get_pet FriendlyPetFactory = Ret (fd, fc)
    ∧ get_pet GuardPetFactory = Ret (gd, gc)
    ∧ speak fd =
        Ret "woof, I love you! I'm Jimmy, a 2-year-old Golden Retriever."
    ∧ speak fc = Ret "meow, purr. I'm Tom, a 3-year-old Persian."
    ∧ speak gd =
        Ret "woof, stay back! I'm Rex, a 4-year-old German Shepherd."
    ∧ speak gc = Ret "meow, beware! I'm Whiskers, a 5-year-old Siamese.".
Proof. by do 4 eexists. Qed.

(** C7: whatever sequence of creation requests a client makes of one
    concrete factory, every request succeeds with a product of that
    factory's family, none of the other family; so does the client
    function [get_pet], for its dog and its cat. *)
Theorem factory_products_stay_in_family
    (f : factory) (fam : family) (requests : list kind) :
  family_of_factory f = Some fam →
  Forall (λ r, ∃ o, r = Ret o
                ∧ family_of_product (class o) = Some fam
                ∧ ∀ other, other ≠ fam →
                    family_of_product (class o) ≠ Some other)
    (create f <$> requests)
  ∧ ∃ dog cat, get_pet f = Ret (dog, cat)
      ∧ family_of_product (class dog) = Some fam
      ∧ family_of_product (class cat) = Some fam.
Proof.
  intros Hf. split.
  - induction requests as [|k ks IH]; constructor; [|exact IH].
    destruct (create_in_family f fam k Hf) as (o & Ho & Hfam).
    exists o. split; [done|]. split; [done|].
    intros other Hne. rewrite Hfam. congruence.
  - destruct (create_in_family f fam KDog Hf) as (d & Hd & Hdf).
    destruct (create_in_family f fam KCat Hf) as (c & Hc & Hcf).
    exists d, c. unfold get_pet. simpl in Hd, Hc. by rewrite Hd, Hc.
Qed.

Lemma factory_products_stay_in_family_witness :
  Forall (λ r, ∃ o, r = Ret o
                ∧ family_of_product (class o) = Some Guard
                ∧ ∀ other, other ≠ Guard →
                    family_of_product (class o) ≠ Some other)
    (create GuardPetFactory <$> [KCat; KDog; KDog; KCat])
  ∧ ∃ dog cat, get_pet GuardPetFactory = Ret (dog, cat)
      ∧ family_of_product (class dog) = Some Guard
      ∧ family_of_product (class cat) = Some Guard.
Proof.
  apply (factory_products_stay_in_family GuardPetFactory Guard). reflexivity.
Defined.

(** C8, as the code has it: the operations of the abstract classes
    raise [NotImplementedError] -- [speak] on a plain [Pet], [Dog] or
    [Cat], [get_pet], [create_dog] and [create_cat] on a plain
    [PetFactory] -- and every override of [speak], [create_dog] and
    [create_cat] in a concrete class returns a value.  The overrides of
    [get_pet] in [DogFactory] and [CatFactory] return a value while the
    name they call is bound to the subclass of [Pet], as it is when the
    script calls them; once the name is rebound to the class taking a
    name only, they raise [TypeError]. *)
Theorem abstract_stubs_raise_overrides_return :
  (∀ o, match Factory.FactoryMethod.class o with
        | Factory.FactoryMethod.Pet =>
            Factory.FactoryMethod.speak o = Raise NotImplementedError
        | Factory.FactoryMethod.Dog | Factory.FactoryMethod.Cat =>
            returns (Factory.FactoryMethod.speak o)
        end)
  ∧ (∀ g, Factory.FactoryMethod.get_pet g Factory.FactoryMethod.PetFactory
          = Raise NotImplementedError)
  ∧ (∀ g,
       match Factory.Dog_bound g with
       | Factory.PetSubclass =>
           returns (Factory.FactoryMethod.get_pet g
                      Factory.FactoryMethod.DogFactory)
       | Factory.NameOnly =>
           Factory.FactoryMethod.get_pet g Factory.FactoryMethod.DogFactory
           = Raise TypeError
       end
       ∧ match Factory.Cat_bound g with
         | Factory.PetSubclass =>
             returns (Factory.FactoryMethod.get_pet g
                        Factory.FactoryMethod.CatFactory)
         | Factory.NameOnly =>
             Factory.FactoryMethod.get_pet g Factory.FactoryMethod.CatFactory
             = Raise TypeError
         end)
  ∧ (∀ o, match class o with
          | Dog | Cat => speak o = Raise NotImplementedError
          | FriendlyDog | GuardDog | FriendlyCat | GuardCat =>
              returns (speak o)
          end)
  ∧ (∀ f, match f with
          | PetFactory =>
              create_dog f = Raise NotImplementedError
              ∧ create_cat f = Raise NotImplementedError
              ∧ get_pet f = Raise NotImplementedError
          | FriendlyPetFactory | GuardPetFactory =>
              returns (create_dog f) ∧ returns (create_cat f)
              ∧ returns (get_pet f)
          end).
Proof.
  split; [|split; [|split; [|split]]].
  - intros [[] n b a]; simpl; [reflexivity| |]; by eexists.
  - reflexivity.
  - intros [[] []]; simpl; split; first [reflexivity|by eexists].
  - intros [[] n b a]; simpl; try reflexivity; by eexists.
  - intros []; repeat split; by eexists.
Qed.

(** C8, as stated, fails for the overrides of [get_pet] on the loaded
    module: lines 99 and 106 have rebound [Dog] and [Cat], and both
    concrete creators raise [TypeError] instead of returning a value. *)
Lemma concrete_get_pet_raises_on_loaded_module :
  Factory.FactoryMethod.get_pet Factory.globals_loaded
    Factory.FactoryMethod.DogFactory = Raise TypeError
  ∧ Factory.FactoryMethod.get_pet Factory.globals_loaded
      Factory.FactoryMethod.CatFactory = Raise TypeError
  ∧ ¬ returns (Factory.FactoryMethod.get_pet Factory.globals_loaded
                 Factory.FactoryMethod.DogFactory)
  ∧ ¬ returns (Factory.FactoryMethod.get_pet Factory.globals_loaded
                 Factory.FactoryMethod.CatFactory).
Proof.
  do 2 (split; [reflexivity|]).
  split; intros [o Ho]; discriminate Ho.
Qed.

End AbstractFactoryClaims.

(** ** Builder/builder.py *)

Section BuilderClaims.
Import Builder.

Implicit Types (h : heap) (self : loc) (o : obj) (v : atom).

Lemma add_garage_eq h self o v :
  h !! self = Some o → class o = HouseBuilder →
  add_garage self v h = (Ret self, <[self := set_has_garage v o]> h).
Proof.
  intros Hself Hcls. unfold add_garage, bind, load.
  by rewrite Hself, Hcls.
Qed.

Lemma add_swimming_pool_eq h self o v :
  h !! self = Some o → class o = HouseBuilder →
  add_swimming_pool self v h =
    (Ret self, <[self := set_has_swimming_pool v o]> h).
Proof.
  intros Hself Hcls. unfold add_swimming_pool, bind, load.
  by rewrite Hself, Hcls.
Qed.

Lemma build_eq h self o :
  h !! self = Some o → class o = HouseBuilder →
  build self h = (Ret (length h), h ++ [snapshot o]).
Proof.
  intros Hself Hcls. unfold build, bind, load.
  by rewrite Hself, Hcls.
Qed.

(** A reference that resolves is below the allocation point. *)
Lemma loc_allocated h self o : h !! self = Some o → self < length h.
Proof. apply lookup_lt_Some. Qed.

Lemma lookup_new h o : (h ++ [o]) !! length h = Some o.
Proof. by rewrite lookup_app_r, Nat.sub_diag. Qed.

(** The printed line of the script. *)
Example builder_usage_output :
  ∃ house hp, usage [] = (Ret house, hp)
    ∧ House_str <$> hp !! house =
        Some ("House with concrete foundation, wood structure, "
              +:+ "shingles roof, a garage, and a swimming pool").
Proof. by do 2 eexists. Qed.

(** C9: on a builder, [add_garage] and [add_swimming_pool] each return
    the reference they were called on and rewrite one field of that
    object: the class, the foundation, the structure, the roof and the
    other optional field stay as they were, as does every other object. *)
Theorem builder_step_frame h self o v :
  h !! self = Some o → class o = HouseBuilder →
  (∃ h', add_garage self v h = (Ret self, h')
     ∧ h' !! self =
         Some (Obj HouseBuilder (foundation o) (structure o) (roof o) v
                 (has_swimming_pool o))
     ∧ (∀ l, l ≠ self → h' !! l = h !! l)
     ∧ length h' = length h)
  ∧ (∃ h', add_swimming_pool self v h = (Ret self, h')
       ∧ h' !! self =
           Some (Obj HouseBuilder (foundation o) (structure o) (roof o)
                   (has_garage o) v)
       ∧ (∀ l, l ≠ self → h' !! l = h !! l)
       ∧ length h' = length h).
Proof.
  intros Hself Hcls.
  pose proof (loc_allocated _ _ _ Hself) as Hlt.
  split; eexists; (split; [by eauto using add_garage_eq, add_swimming_pool_eq|]).
  - rewrite list_lookup_insert_eq by done.
    split; [unfold set_has_garage; by rewrite Hcls|].
    split; [intros l Hl; by rewrite list_lookup_insert_ne|].
    apply length_insert.
  - rewrite list_lookup_insert_eq by done.
    split; [unfold set_has_swimming_pool; by rewrite Hcls|].
    split; [intros l Hl; by rewrite list_lookup_insert_ne|].
    apply length_insert.
Qed.

Lemma builder_step_frame_witness :
  let b := Obj HouseBuilder (AStr "concrete") (AStr "wood") (AStr "shingles")
             (ABool false) (ABool false) in
  let other := snapshot b in
  (∃ h', add_garage 1 (ABool true) [other; b] = (Ret 1, h')
     ∧ h' !! 1 =
         Some (Obj HouseBuilder (foundation b) (structure b) (roof b)
                 (ABool true) (has_swimming_pool b))
     ∧ (∀ l, l ≠ 1 → h' !! l = [other; b] !! l)
     ∧ length h' = length [other; b])
  ∧ (∃ h', add_swimming_pool 1 (ABool true) [other; b] = (Ret 1, h')
       ∧ h' !! 1 =
           Some (Obj HouseBuilder (foundation b) (structure b) (roof b)
                   (has_garage b) (ABool true))
       ∧ (∀ l, l ≠ 1 → h' !! l = [other; b] !! l)
       ∧ length h' = length [other; b]).
Proof.
  intros b other.
  apply (builder_step_frame [other; b] 1 b (ABool true)); reflexivity.
Defined.

(** Two steps and [build()]: the house allocated holds the fields of the
    builder as the two steps left them. *)
Lemma chain_garage_pool_eq h self o g p :
  h !! self = Some o → class o = HouseBuilder →
  ∃ h', chain_garage_pool self g p h = (Ret (length h), h')
    ∧ h' !! length h =
        Some (Obj House (foundation o) (structure o) (roof o) g p)
    ∧ h' !! self =
        Some (Obj HouseBuilder (foundation o) (structure o) (roof o) g p).
Proof.
  intros Hself Hcls.
  pose proof (loc_allocated _ _ _ Hself) as Hlt.
  set (o1 := set_has_garage g o).
  set (h1 := <[self := o1]> h).
  assert (h1 !! self = Some o1) as H1 by by apply list_lookup_insert_eq.
  set (o2 := set_has_swimming_pool p o1).
  set (h2 := <[self := o2]> h1).
  assert (h2 !! self = Some o2) as H2.
  { apply list_lookup_insert_eq. unfold h1. by rewrite length_insert. }
  assert (length h2 = length h) as Hlen.
  { unfold h2, h1. by rewrite !length_insert. }
  exists (h2 ++ [snapshot o2]).
  split; [|split].
  - unfold chain_garage_pool.
    rewrite (bind_returns _ _ _ _ _ (add_garage_eq h self o g Hself Hcls)).
    fold o1 h1.
    rewrite (bind_returns _ _ _ _ _
               (add_swimming_pool_eq h1 self o1 p H1 Hcls)).
    fold o2 h2.
    rewrite (build_eq h2 self o2 H2 Hcls). by rewrite Hlen.
  - rewrite <- Hlen. by rewrite lookup_new.
  - rewrite lookup_app_l by lia. rewrite H2.
    unfold o2, o1, set_has_swimming_pool, set_has_garage. simpl.
    by rewrite Hcls.
Qed.

Lemma chain_garage_twice_eq h self o g1 g2 :
  h !! self = Some o → class o = HouseBuilder →
  ∃ h', chain_garage_twice self g1 g2 h = (Ret (length h), h')
    ∧ h' !! length h =
        Some (Obj House (foundation o) (structure o) (roof o) g2
                (has_swimming_pool o)).
Proof.
  intros Hself Hcls.
  pose proof (loc_allocated _ _ _ Hself) as Hlt.
  set (o1 := set_has_garage g1 o).
  set (h1 := <[self := o1]> h).
  assert (h1 !! self = Some o1) as H1 by by apply list_lookup_insert_eq.
  set (o2 := set_has_garage g2 o1).
  set (h2 := <[self := o2]> h1).
  assert (h2 !! self = Some o2) as H2.
  { apply list_lookup_insert_eq. unfold h1. by rewrite length_insert. }
  assert (length h2 = length h) as Hlen.
  { unfold h2, h1. by rewrite !length_insert. }
  exists (h2 ++ [snapshot o2]).
  split.
  - unfold chain_garage_twice.
    rewrite (bind_returns _ _ _ _ _ (add_garage_eq h self o g1 Hself Hcls)).
    fold o1 h1.
    rewrite (bind_returns _ _ _ _ _ (add_garage_eq h1 self o1 g2 H1 Hcls)).
    fold o2 h2.
    rewrite (build_eq h2 self o2 H2 Hcls). by rewrite Hlen.
  - rewrite <- Hlen. by rewrite lookup_new.
Qed.

(** C5: on any builder, the chain [add_garage(True)],
    [add_swimming_pool(True)], [build()] returns a new house with both
    optional fields [True] and the builder's three basic parts; and when
    [add_garage] is called twice before [build()], the house has the
    value of the second call -- [False] after [True] in particular. *)
Theorem builder_chain_last_write_wins h self o g1 g2 :
  h !! self = Some o → class o = HouseBuilder →
  (∃ h', chain_garage_pool self (ABool true) (ABool true) h =
           (Ret (length h), h')
     ∧ h' !! length h =
         Some (Obj House (foundation o) (structure o) (roof o)
                 (ABool true) (ABool true)))
  ∧ (∃ h', chain_garage_twice self g1 g2 h = (Ret (length h), h')
       ∧ ∃ house, h' !! length h = Some house ∧ has_garage house = g2)
  ∧ (∃ h', chain_garage_twice self (ABool true) (ABool false) h =
             (Ret (length h), h')
       ∧ ∃ house, h' !! length h = Some house
           ∧ has_garage house = ABool false).
Proof.
  intros Hself Hcls. split; [|split].
  - destruct (chain_garage_pool_eq h self o (ABool true) (ABool true)
                Hself Hcls) as (h' & Hrun & Hhouse & _).
    by exists h'.
  - destruct (chain_garage_twice_eq h self o g1 g2 Hself Hcls)
      as (h' & Hrun & Hhouse).
    exists h'. split; [done|]. by eexists.
  - destruct (chain_garage_twice_eq h self o (ABool true) (ABool false)
                Hself Hcls) as (h' & Hrun & Hhouse).
    exists h'. split; [done|]. by eexists.
Qed.

Lemma builder_chain_last_write_wins_witness :
  let b := Obj HouseBuilder (AStr "concrete") (AStr "wood") (AStr "shingles")
             (ABool false) (ABool false) in
  (∃ h', chain_garage_pool 0 (ABool true) (ABool true) [b] = (Ret 1, h')
     ∧ h' !! 1 =
         Some (Obj House (AStr "concrete") (AStr "wood") (AStr "shingles")
                 (ABool true) (ABool true)))
  ∧ (∃ h', chain_garage_twice 0 (AInt 1) (AInt 0) [b] = (Ret 1, h')
       ∧ ∃ house, h' !! 1 = Some house ∧ has_garage house = AInt 0)
  ∧ (∃ h', chain_garage_twice 0 (ABool true) (ABool false) [b] = (Ret 1, h')
       ∧ ∃ house, h' !! 1 = Some house ∧ has_garage house = ABool false).
Proof.
  intros b.
  apply (builder_chain_last_write_wins [b] 0 b (AInt 1) (AInt 0));
    reflexivity.
Defined.

(** C6, as the code has it: [build()] allocates a house holding the
    builder's fields at that instant and leaves the builder as it was;
    the builder has no finalized state, so afterwards either step still
    returns the builder, changing no house already built, and a second
    [build()] returns one more house, at a new reference. *)
Theorem build_snapshots_and_builder_stays_usable h self o v :
  h !! self = Some o → class o = HouseBuilder →
  ∃ h1, build self h = (Ret (length h), h1)
    ∧ h1 !! length h = Some (snapshot o)
    ∧ h1 !! self = Some o
    ∧ (∃ h2, add_garage self v h1 = (Ret self, h2)
         ∧ h2 !! length h = Some (snapshot o))
    ∧ (∃ h2, add_swimming_pool self v h1 = (Ret self, h2)
         ∧ h2 !! length h = Some (snapshot o))
    ∧ (∃ h2, build self h1 = (Ret (S (length h)), h2)
         ∧ h2 !! length h = Some (snapshot o)
         ∧ h2 !! S (length h) = Some (snapshot o)).
Proof.
  intros Hself Hcls.
  pose proof (loc_allocated _ _ _ Hself) as Hlt.
  set (h1 := h ++ [snapshot o]).
  assert (h1 !! self = Some o) as H1 by by apply lookup_app_l_Some.
  assert (h1 !! length h = Some (snapshot o)) as Hhouse by apply lookup_new.
  assert (length h1 = S (length h)) as Hlen.
  { unfold h1. rewrite length_app. simpl. lia. }
  exists h1. split; [by apply build_eq|]. do 2 (split; [done|]).
  split; [|split].
  - eexists. split; [by apply add_garage_eq|].
    rewrite list_lookup_insert_ne by lia. done.
  - eexists. split; [by apply add_swimming_pool_eq|].
    rewrite list_lookup_insert_ne by lia. done.
  - eexists. split; [rewrite <- Hlen; by apply build_eq|].
    split.
    + by apply lookup_app_l_Some.
    + rewrite <- Hlen. apply lookup_new.
Qed.

Lemma build_snapshots_and_builder_stays_usable_witness :
  let b := Obj HouseBuilder (AStr "concrete") (AStr "wood") (AStr "shingles")
             (ABool true) (ABool false) in
  ∃ h1, build 0 [b] = (Ret 1, h1)
    ∧ h1 !! 1 = Some (snapshot b)
    ∧ h1 !! 0 = Some b
    ∧ (∃ h2, add_garage 0 (ABool false) h1 = (Ret 0, h2)
         ∧ h2 !! 1 = Some (snapshot b))
    ∧ (∃ h2, add_swimming_pool 0 (ABool false) h1 = (Ret 0, h2)
         ∧ h2 !! 1 = Some (snapshot b))
    ∧ (∃ h2, build 0 h1 = (Ret 2, h2)
         ∧ h2 !! 1 = Some (snapshot b)
         ∧ h2 !! 2 = Some (snapshot b)).
Proof.
  intros b.
  apply (build_snapshots_and_builder_stays_usable [b] 0 b (ABool false));
    reflexivity.
Defined.

(** C6, as stated, fails on the builder of the usage lines: after its
    [build()], [add_garage], [add_swimming_pool] and a second [build()]
    all return, and the client [build_step_build] runs to its end. *)
Lemma builder_steps_after_build_do_not_raise :
  ∃ builder house h,
    bind (HouseBuilder_new (AStr "concrete") (AStr "wood") (AStr "shingles"))
      (λ b, bind (build b) (λ hs, ret (b, hs))) [] =
      (Ret (builder, house), h)
    ∧ ¬ raises (add_garage builder (ABool true) h).1
    ∧ ¬ raises (add_swimming_pool builder (ABool true) h).1
    ∧ ¬ raises (build builder h).1
    ∧ (build_step_build builder (ABool true) h).1 = Ret (2, builder, 3).
Proof.
  exists 0, 1. eexists. split; [reflexivity|].
  repeat split; try (intros [e He]; discriminate He).
Qed.

End BuilderClaims.

(** ** Singleton_Pattern/singleton_pattern.py *)

Section SingletonClaims.
Import SingletonPattern.

Implicit Types (s : store) (l : loc) (args : list val)
  (kwargs : gmap string val).

(** [object.__init__] accepts anything for [Singleton], which overrides
    [__new__] and not [__init__]. *)
Lemma object_init_Singleton args kwargs s :
  object_init Singleton args kwargs s = (Ret tt, s).
Proof. unfold object_init. by destruct (excess_args args kwargs). Qed.

Lemma bind_params_free {S} (param : string) kwargs (s : S) :
  kwargs !! param = None → bind_params param kwargs s = (Ret tt, s).
Proof. intros H. unfold bind_params. by rewrite H. Qed.

Lemma bind_params_clash {S} (param : string) kwargs (v : val) (s : S) :
  kwargs !! param = Some v → bind_params param kwargs s = (Raise TypeError, s).
Proof. intros H. unfold bind_params. by rewrite H. Qed.

(** Once [_instance] is set, [__new__] returns it without allocating. *)
Lemma Singleton___new___existing s l args kwargs :
  Singleton_instance s = Some l →
  kwargs !! "cls" = None →
  Singleton___new__ args kwargs s = (Ret (Some l), s).
Proof.
  intros Hinst Hcls. unfold Singleton___new__.
  rewrite (bind_returns _ _ _ _ _ (bind_params_free "cls" kwargs s Hcls)).
  unfold bind, gets. rewrite Hinst. simpl. by rewrite Hinst.
Qed.

(** So a call returns it and leaves the store as it is, whatever the
    arguments, as long as they can be bound. *)
Lemma Singleton_call_existing s l args kwargs :
  Singleton_instance s = Some l →
  kwargs !! "cls" = None →
  Singleton_call args kwargs s = (Ret (Some l), s).
Proof.
  intros Hinst Hcls. unfold Singleton_call.
  rewrite (bind_returns _ _ _ _ _
             (Singleton___new___existing s l args kwargs Hinst Hcls)).
  unfold bind, gets.
  destruct (objs s !! l) as [[[] d]|]; simpl; try reflexivity.
  by rewrite object_init_Singleton.
Qed.

(** A keyword argument named like the first parameter stops the call
    before the body of [__new__] runs. *)
Lemma Singleton_call_cls_keyword s args kwargs (v : val) :
  kwargs !! "cls" = Some v →
  Singleton_call args kwargs s = (Raise TypeError, s).
Proof.
  intros Hcls. unfold Singleton_call, Singleton___new__.
  apply bind_raises, bind_raises. by apply (bind_params_clash _ _ v).
Qed.

Lemma excess_args_none : excess_args [] ∅ = false.
Proof. unfold excess_args. by rewrite map_size_empty. Qed.

Lemma object_new_noargs (c : cls) s :
  object_new c [] ∅ s = (Ret (length (objs s)), allocate c s).
Proof. unfold object_new. by rewrite excess_args_none. Qed.

Lemma lookup_allocate (c : cls) s :
  objs (allocate c s) !! length (objs s) = Some (Obj c (length (dicts s))).
Proof. simpl. by rewrite lookup_app_r, Nat.sub_diag. Qed.

(** A first call without arguments allocates the instance and binds
    [_instance] to it. *)
Lemma Singleton_call_first s :
  Singleton_instance s = None →
  Singleton_call [] ∅ s =
    (Ret (Some (length (objs s))),
     set_Singleton_instance (Some (length (objs s))) (allocate Singleton s)).
Proof.
  intros Hinst.
  unfold Singleton_call, Singleton___new__.
  unfold bind, gets, bind_params. rewrite lookup_empty. simpl.
  rewrite Hinst. simpl.
  rewrite object_new_noargs. simpl.
  rewrite lookup_app_r, Nat.sub_diag by done. simpl.
  by rewrite object_init_Singleton.
Qed.

Lemma Singleton_calls_existing s l n :
  Singleton_instance s = Some l →
  Singleton_calls n s = (Ret (replicate n (Some l)), s).
Proof.
  intros Hinst. induction n as [|n IH]; [reflexivity|].
  simpl. unfold bind.
  rewrite (Singleton_call_existing s l [] ∅ Hinst (lookup_empty _)).
  by rewrite IH.
Qed.

(** The usage lines 31-34. *)
Example singleton_usage :
  ∃ s', Singleton_calls 2 init = (Ret [Some 0; Some 0], s')
    ∧ length (objs s') = 1.
Proof. by eexists. Qed.

(** C3: in any store, a call [Singleton()] returns an object and
    [_instance] then holds it.  If [_instance] was [None], the object is
    new: the call allocated it and stored it.  From then on every call,
    whatever its arguments, returns that same object and leaves the whole
    store as it is -- nothing is allocated again -- so any number of
    further calls [Singleton()] all return it. *)
Theorem singleton_calls_return_one_instance s :
  ∃ l s1,
    Singleton_call [] ∅ s = (Ret (Some l), s1)
    ∧ Singleton_instance s1 = Some l
    ∧ match Singleton_instance s with
      | None =>
          l = length (objs s)
          ∧ objs s !! l = None
          ∧ objs s1 = objs s ++ [Obj Singleton (length (dicts s))]
      | Some l0 => l = l0 ∧ s1 = s
      end
    ∧ (∀ args kwargs, kwargs !! "cls" = None →
         Singleton_call args kwargs s1 = (Ret (Some l), s1))
    ∧ (∀ n, Singleton_calls n s1 = (Ret (replicate n (Some l)), s1)).
Proof.
  destruct (Singleton_instance s) as [l0|] eqn:Hinst.
  - exists l0, s.
    split; [by apply Singleton_call_existing|].
    split; [done|]. split; [done|].
    split; [intros; by apply Singleton_call_existing|].
    intros n. by apply Singleton_calls_existing.
  - eexists _, _. split; [by apply Singleton_call_first|].
    split; [reflexivity|].
    split; [|split].
    + split; [reflexivity|]. split; [|reflexivity].
      by apply lookup_ge_None_2.
    + intros. by apply Singleton_call_existing.
    + intros n. by apply Singleton_calls_existing.
Qed.

End SingletonClaims.

Section BorgClaims.
Import SingletonPattern.

Implicit Types (s : store) (l : loc) (o : obj) (kwargs sh : gmap string val).

(** [object.__new__] accepts keyword arguments for [Singleton1], which
    overrides [__init__] and not [__new__]. *)
Lemma object_new_Singleton1 kwargs s :
  object_new Singleton1 [] kwargs s =
    (Ret (length (objs s)), allocate Singleton1 s).
Proof. unfold object_new. by destruct (excess_args [] kwargs). Qed.

(** Reading [_shared_state] through an instance of the Borg family: the
    entry of its [__dict__] if there is one, the class attribute if not. *)
Lemma getattr_shared_state_own s l o d v :
  objs s !! l = Some o → dicts s !! dict o = Some d →
  d !! "_shared_state" = Some v →
  getattr l "_shared_state" s = (Ret v, s).
Proof.
  intros Ho Hd Hv. unfold getattr. rewrite Ho, Hd. simpl. by rewrite Hv.
Qed.

Lemma getattr_shared_state_class s l o d :
  objs s !! l = Some o → dicts s !! dict o = Some d →
  d !! "_shared_state" = None → class o ≠ Singleton →
  getattr l "_shared_state" s = (Ret (VDict (Borg_shared_state s)), s).
Proof.
  intros Ho Hd Hv Hcls. unfold getattr. rewrite Ho, Hd. simpl. rewrite Hv.
  by destruct (class o).
Qed.

(** [Borg.__init__] on a newly allocated object: its own [__dict__] is
    empty, so the class attribute is read and becomes its [__dict__]. *)
Lemma Borg___init___new (c : cls) s :
  c ≠ Singleton →
  Borg___init__ (length (objs s)) (allocate c s) =
    (Ret tt,
     Store (objs s ++ [Obj c (Borg_shared_state s)]) (dicts s ++ [∅])
       (Singleton_instance s) (Borg_shared_state s)).
Proof.
  intros Hc. unfold Borg___init__.
  erewrite bind_returns; last first.
  { eapply (getattr_shared_state_class _ _ _ ∅);
      [apply lookup_allocate| |done|done].
    simpl. by rewrite lookup_app_r, Nat.sub_diag. }
  unfold set___dict__, modify, set_objs, allocate. simpl. f_equal. f_equal.
  rewrite alter_app_r_alt by done. by rewrite Nat.sub_diag.
Qed.

(** [Borg()] returns a new object whose [__dict__] is the shared dict. *)
Lemma Borg_call_shares s sh :
  dicts s !! Borg_shared_state s = Some sh →
  ∃ s', Borg_call s = (Ret (length (objs s)), s')
    ∧ objs s' !! length (objs s) = Some (Obj Borg (Borg_shared_state s))
    ∧ vars (length (objs s)) s' = Some sh.
Proof.
  intros Hsh. eexists. split.
  - unfold Borg_call.
    rewrite (bind_returns _ _ _ _ _ (object_new_noargs Borg s)).
    erewrite bind_returns; [reflexivity|]. by apply Borg___init___new.
  - unfold vars. simpl. rewrite lookup_app_r, Nat.sub_diag by done.
    split; [done|]. simpl. by apply lookup_app_l_Some.
Qed.

(** A call [Singleton1] with keyword arguments, while the shared dict has
    no entry "_shared_state": a new instance whose [__dict__] is the
    shared dict, and the arguments merged into that dict. *)
Lemma Singleton1_call_merges s kwargs sh :
  kwargs !! "self" = None →
  dicts s !! Borg_shared_state s = Some sh →
  sh !! "_shared_state" = None →
  Singleton1_call kwargs s =
    (Ret (length (objs s)),
     Store (objs s ++ [Obj Singleton1 (Borg_shared_state s)])
       (alter (λ old, kwargs ∪ old) (Borg_shared_state s) (dicts s ++ [∅]))
       (Singleton_instance s) (Borg_shared_state s)).
Proof.
  intros Hself Hsh Hfree. unfold Singleton1_call.
  rewrite (bind_returns _ _ _ _ _ (object_new_Singleton1 kwargs s)).
  erewrite bind_returns; [reflexivity|].
  unfold Singleton1___init__.
  erewrite bind_returns; last by apply bind_params_free.
  erewrite bind_returns; last by apply Borg___init___new.
  erewrite bind_returns; last first.
  { apply (getattr_shared_state_class _ _
             (Obj Singleton1 (Borg_shared_state s)) sh); simpl; [| |done|done].
    - by rewrite lookup_app_r, Nat.sub_diag.
    - by apply lookup_app_l_Some. }
  reflexivity.
Qed.

(** The same call while the shared dict binds "_shared_state" to an atom:
    the entry shadows the class attribute, the lookup of [update] on it
    raises, and the shared dict stays as it was. *)
Lemma Singleton1_call_shadowed s kwargs sh (a : atom) :
  kwargs !! "self" = None →
  dicts s !! Borg_shared_state s = Some sh →
  sh !! "_shared_state" = Some (VAtom a) →
  ∃ s', Singleton1_call kwargs s = (Raise AttributeError, s')
    ∧ dicts s' !! Borg_shared_state s' = Some sh.
Proof.
  intros Hself Hsh Hshadow. eexists. split.
  - unfold Singleton1_call.
    rewrite (bind_returns _ _ _ _ _ (object_new_Singleton1 kwargs s)).
    unfold Singleton1___init__.
    erewrite bind_raises; [reflexivity|].
    erewrite bind_returns; last by apply bind_params_free.
    erewrite bind_returns; last by apply Borg___init___new.
    erewrite bind_returns; last first.
    { apply (getattr_shared_state_own _ _
               (Obj Singleton1 (Borg_shared_state s)) sh); simpl; [| |done].
      - by rewrite lookup_app_r, Nat.sub_diag.
      - by apply lookup_app_l_Some. }
    reflexivity.
  - simpl. by apply lookup_app_l_Some.
Qed.

(** Two calls in a row, when no field is named "_shared_state" (nor
    "self", which cannot be passed by keyword): two distinct instances,
    and every object whose [__dict__] is the shared dict shows the second
    set of fields over the first over what was there. *)
Lemma Singleton1_calls_share_state s (F1 F2 : gmap string val) sh :
  F1 !! "self" = None → F2 !! "self" = None →
  dicts s !! Borg_shared_state s = Some sh →
  sh !! "_shared_state" = None →
  F1 !! "_shared_state" = None →
  ∃ s1 s2,
    Singleton1_call F1 s = (Ret (length (objs s)), s1)
    ∧ Singleton1_call F2 s1 = (Ret (S (length (objs s))), s2)
    ∧ vars (length (objs s)) s1 = Some (F1 ∪ sh)
    ∧ (∀ l o, objs s2 !! l = Some o → dict o = Borg_shared_state s →
         vars l s2 = Some (F2 ∪ (F1 ∪ sh)))
    ∧ vars (length (objs s)) s2 = Some (F2 ∪ (F1 ∪ sh))
    ∧ vars (S (length (objs s))) s2 = Some (F2 ∪ (F1 ∪ sh)).
Proof.
  intros Hself1 Hself2 Hsh Hfree HF1.
  pose proof (lookup_lt_Some _ _ _ Hsh) as Hlt.
  eexists _, _. split; [by apply (Singleton1_call_merges _ _ sh)|].
  set (sd := Borg_shared_state s) in *.
  set (ds1 := alter (λ old, F1 ∪ old) sd (dicts s ++ [∅])).
  assert (ds1 !! sd = Some (F1 ∪ sh)) as Hds1.
  { unfold ds1. rewrite list_lookup_alter_eq.
    by rewrite (lookup_app_l_Some _ _ _ _ Hsh). }
  assert ((ds1 ++ [∅]) !! sd = Some (F1 ∪ sh)) as Hds1'
    by by apply lookup_app_l_Some.
  split.
  { erewrite (Singleton1_call_merges _ _ (F1 ∪ sh)); simpl;
      [|done|exact Hds1|].
    - do 2 f_equal. rewrite length_app. simpl. lia.
    - apply lookup_union_None. by split. }
  assert (∀ l o, (objs s ++ [Obj Singleton1 sd]) !! l = Some o →
            dict o = sd →
            vars l (Store (objs s ++ [Obj Singleton1 sd]) ds1
                      (Singleton_instance s) sd) = Some (F1 ∪ sh)) as Hobs1.
  { intros l o Ho Hd. unfold vars. simpl. rewrite Ho. simpl. by rewrite Hd. }
  assert (∀ l o,
            ((objs s ++ [Obj Singleton1 sd]) ++ [Obj Singleton1 sd]) !! l
              = Some o →
            dict o = sd →
            vars l (Store
                      ((objs s ++ [Obj Singleton1 sd]) ++ [Obj Singleton1 sd])
                      (alter (λ old, F2 ∪ old) sd (ds1 ++ [∅]))
                      (Singleton_instance s) sd)
              = Some (F2 ∪ (F1 ∪ sh))) as Hobs2.
  { intros l o Ho Hd. unfold vars. simpl. rewrite Ho. simpl. rewrite Hd.
    rewrite list_lookup_alter_eq. by rewrite Hds1'. }
  split; [|split; [|split]].
  - apply (Hobs1 _ (Obj Singleton1 sd)); [|done].
    by rewrite lookup_app_r, Nat.sub_diag.
  - exact Hobs2.
  - apply (Hobs2 _ (Obj Singleton1 sd)); [|done].
    apply lookup_app_l_Some. by rewrite lookup_app_r, Nat.sub_diag.
  - apply (Hobs2 _ (Obj Singleton1 sd)); [|done].
    rewrite lookup_app_r; rewrite length_app; simpl; [|lia].
    by replace (S (length (objs s)) - (length (objs s) + 1)) with 0 by lia.
Qed.

(** The usage lines 53-58: both instances show the three fields, and
    they are two objects. *)
Example borg_usage :
  ∃ l1 l2 s',
    usage_borg init = (Ret (l1, l2), s')
    ∧ l1 ≠ l2
    ∧ vars l1 s' = vars l2 s'
    ∧ vars l1 s' =
        Some (<["a" := VAtom (AInt 1)]> (<["b" := VAtom (AInt 2)]>
               (<["c" := VAtom (AInt 3)]> ∅))).
Proof.
  exists 0, 1. eexists. split; [by vm_compute|].
  split; [done|]. split; by vm_compute.
Qed.

(** C4 at the field set [{"_shared_state": 1}] followed by [{"a": 2}]:
    the first call returns an instance that shows the first set; the
    second call raises [AttributeError], and the instance still shows the
    first set alone, not the union. *)
Theorem borg_field_named_shared_state_stops_sharing :
  let F1 : gmap string val := <["_shared_state" := VAtom (AInt 1)]> ∅ in
  let F2 : gmap string val := <["a" := VAtom (AInt 2)]> ∅ in
  ∃ s1 s2,
    Singleton1_call F1 init = (Ret 0, s1)
    ∧ vars 0 s1 = Some F1
    ∧ Singleton1_call F2 s1 = (Raise AttributeError, s2)
    ∧ vars 0 s2 = Some F1
    ∧ vars 0 s2 ≠ Some (F2 ∪ F1).
Proof.
  intros F1 F2. eexists _, _.
  split; [by vm_compute|]. split; [by vm_compute|].
  split; [by vm_compute|]. split; [by vm_compute|].
  intros Heq. vm_compute in Heq. discriminate Heq.
Qed.

End BorgClaims.

(** * Further properties of the scripts *)

(** ** Factory/factory.py *)

Section FactoryMore.
Import Factory.

(** X1: while [Dog] and [Cat] are bound to the subclasses of [Pet], as
    when the script calls the creators, [display_pet] on a concrete
    creator prints exactly one line, after whatever was printed before:
    "The pet says: " followed by what the creator's pet says.  On the
    abstract creator it raises [NotImplementedError] and prints nothing,
    whatever the bindings; and on the loaded module, where both names
    are rebound, it raises [TypeError] on either concrete creator and
    prints nothing. *)
Theorem display_pet_prints_one_line
    (g : globals) (c : FactoryMethod.creator) (out : list string) :
  Dog_bound g = PetSubclass → Cat_bound g = PetSubclass →
  c ≠ FactoryMethod.PetFactory →
  (∃ pet said,
     FactoryMethod.get_pet g c = Ret pet
     ∧ FactoryMethod.speak pet = Ret said
     ∧ FactoryMethod.display_pet g c out =
         (Ret tt, out ++ ["The pet says: " +:+ said]))
  ∧ (∀ g', FactoryMethod.display_pet g' FactoryMethod.PetFactory out =
             (Raise NotImplementedError, out))
  ∧ FactoryMethod.display_pet globals_loaded c out = (Raise TypeError, out).
Proof.
  destruct g as [d k]. simpl. intros -> -> Hc.
  split; [|split; [reflexivity|]].
  - destruct c; [done| |]; by do 2 eexists.
  - by destruct c.
Qed.

Lemma display_pet_prints_one_line_witness :
  (∃ pet said,
     FactoryMethod.get_pet globals_at_line_86 FactoryMethod.CatFactory =
       Ret pet
     ∧ FactoryMethod.speak pet = Ret said
     ∧ FactoryMethod.display_pet globals_at_line_86 FactoryMethod.CatFactory
         ["earlier"] =
         (Ret tt, ["earlier"] ++ ["The pet says: " +:+ said]))
  ∧ (∀ g', FactoryMethod.display_pet g' FactoryMethod.PetFactory
             ["earlier"] = (Raise NotImplementedError, ["earlier"]))
  ∧ FactoryMethod.display_pet globals_loaded FactoryMethod.CatFactory
      ["earlier"] = (Raise TypeError, ["earlier"]).
Proof.
  apply (display_pet_prints_one_line globals_at_line_86
           FactoryMethod.CatFactory ["earlier"]);
    [reflexivity|reflexivity|discriminate].
Defined.

(** X2: in the dict variant, calling [speak()] on what [get_pet] returned
    for a hashable key other than "dog" and "cat" raises
    [AttributeError], since the result is [None]; for the two keys it
    returns the sounds; and for an unhashable key [get_pet] itself raises
    [TypeError], so that there is nothing to call [speak()] on. *)
Theorem speak_on_lookup_miss_raises (k : key) :
  hashable k = true →
  k ≠ KAtom (AStr "dog") → k ≠ KAtom (AStr "cat") →
  (∃ v, DictLookup.get_pet k = Ret v
     ∧ DictLookup.call_speak v = Raise AttributeError)
  ∧ (∃ d, DictLookup.get_pet (KAtom (AStr "dog")) = Ret d
       ∧ DictLookup.call_speak d = Ret "woof!")
  ∧ (∃ c, DictLookup.get_pet (KAtom (AStr "cat")) = Ret c
       ∧ DictLookup.call_speak c = Ret "Meow!")
  ∧ (∀ k', hashable k' = false →
       DictLookup.get_pet k' = Raise TypeError).
Proof.
  intros Hhash Hdog Hcat. split; [|split; [|split]]; [|by eexists..|].
  - exists DictLookup.VNone. split; [|reflexivity].
    apply DictLookup_get_pet_miss; [done|]. by apply DictLookup_pets_keys.
  - intros k' Hk'. by apply dict_get_unhashable.
Qed.

Lemma speak_on_lookup_miss_raises_witness :
  (∃ v, DictLookup.get_pet (KAtom (AInt 7)) = Ret v
     ∧ DictLookup.call_speak v = Raise AttributeError)
  ∧ (∃ d, DictLookup.get_pet (KAtom (AStr "dog")) = Ret d
       ∧ DictLookup.call_speak d = Ret "woof!")
  ∧ (∃ c, DictLookup.get_pet (KAtom (AStr "cat")) = Ret c
       ∧ DictLookup.call_speak c = Ret "Meow!")
  ∧ (∀ k', hashable k' = false →
       DictLookup.get_pet k' = Raise TypeError).
Proof.
  apply (speak_on_lookup_miss_raises (KAtom (AInt 7)));
    [reflexivity|discriminate|discriminate].
Defined.

(** X3: the two lookup variants agree wherever the dict variant gives a
    pet: if [get_pet(k).speak()] returns a sound there, the
    default-product variant returns a pet of the same name whose
    [speak()] returns that sound. *)
Theorem lookup_variants_agree_on_hits
    (k : key) (o : DictLookup.obj) (said : string) :
  DictLookup.get_pet k = Ret (DictLookup.VObj o) →
  DictLookup.speak o = Ret said →
  ∃ p, DefaultSentinel.get_pet k = Ret p
    ∧ DefaultSentinel.name p = DictLookup.name o
    ∧ DefaultSentinel.speak p = Ret (AStr said).
Proof.
  intros Hget Hsaid.
  destruct (dict_lookup DictLookup.pets k) as [v|] eqn:Hk.
  - rewrite (DictLookup_get_pet_hit k v Hk) in Hget.
    injection Hget as ->.
    destruct k as [[| | |k]|items|items]; simpl in Hk; try discriminate Hk.
    unfold DictLookup.pets in Hk.
    destruct (decide (k = "cat")) as [->|Hcat].
    + rewrite lookup_insert_eq in Hk. injection Hk as <-.
      injection Hsaid as <-. by eexists.
    + rewrite lookup_insert_ne in Hk by done.
      destruct (decide (k = "dog")) as [->|Hdog].
      * rewrite lookup_insert_eq in Hk. injection Hk as <-.
        injection Hsaid as <-. by eexists.
      * rewrite lookup_insert_ne, lookup_empty in Hk by done. discriminate Hk.
  - unfold DictLookup.get_pet, dict_get in Hget. rewrite Hk in Hget.
    destruct (hashable k); discriminate Hget.
Qed.

Lemma lookup_variants_agree_on_hits_witness :
  ∃ p, DefaultSentinel.get_pet (KAtom (AStr "cat")) = Ret p
    ∧ DefaultSentinel.name p = AStr "Tom"
    ∧ DefaultSentinel.speak p = Ret (AStr "Meow!").
Proof.
  apply (lookup_variants_agree_on_hits (KAtom (AStr "cat"))
           (DictLookup.new DictLookup.Cat (AStr "Tom")) "Meow!");
    reflexivity.
Defined.

End FactoryMore.

(** ** Abstract_Factory/abstract__factory.py *)

Section AbstractFactoryMore.
Import AbstractFactory.

(** X4: whenever the client [get_pet] returns, its first result is an
    instance of [Dog] and its second an instance of [Cat], both of a
    concrete class, so that [speak()] returns on each. *)
Theorem get_pet_returns_a_dog_and_a_cat (f : factory) (dog cat : obj) :
  get_pet f = Ret (dog, cat) →
  Dog ∈ mro (class dog) ∧ Cat ∈ mro (class cat)
  ∧ returns (speak dog) ∧ returns (speak cat).
Proof.
  destruct f; intros [= <- <-]; simpl;
    (split; [set_solver|split; [set_solver|split; by eexists]]).
Qed.

Lemma get_pet_returns_a_dog_and_a_cat_witness :
  let dog := new FriendlyDog (AStr "Jimmy") (AStr "Golden Retriever")
               (AInt 2) in
  let cat := new FriendlyCat (AStr "Tom") (AStr "Persian") (AInt 3) in
  Dog ∈ mro (class dog) ∧ Cat ∈ mro (class cat)
  ∧ returns (speak dog) ∧ returns (speak cat).
Proof.
  intros dog cat.
  apply (get_pet_returns_a_dog_and_a_cat FriendlyPetFactory dog cat).
  reflexivity.
Defined.

End AbstractFactoryMore.

(** ** Builder/builder.py *)

Section BuilderMore.
Import Builder.

Implicit Types (h : heap) (self : loc) (o : obj) (v : atom).

(** The three methods raise on a house, and leave the heap alone. *)
Lemma perform_on_house (r : request) h self o :
  h !! self = Some o → class o = House →
  match r with
  | AddGarage l _ | AddSwimmingPool l _ | Build l => l = self
  end →
  perform r h = (Raise AttributeError, h).
Proof.
  intros Hself Hcls Hr.
  destruct r; simpl in *; subst;
    unfold add_garage, add_swimming_pool, build, bind, load;
    by rewrite Hself, Hcls.
Qed.

(** One request: the heap keeps every object's class, keeps every house
    as it is, and grows by at most one object. *)
Lemma perform_keeps (r : request) h :
  let h' := (perform r h).2 in
  (∀ l o, h !! l = Some o →
     ∃ o', h' !! l = Some o' ∧ class o' = class o
       ∧ (class o = House → o' = o))
  ∧ length h ≤ length h'.
Proof.
  assert (∀ l o, h !! l = Some o →
            ∃ o', h !! l = Some o' ∧ class o' = class o
              ∧ (class o = House → o' = o)) as Hsame by eauto.
  assert (∀ self o (f : obj → obj),
            h !! self = Some o → class o = HouseBuilder →
            (∀ x, class (f x) = class x) →
            (∀ l o0, h !! l = Some o0 →
               ∃ o', <[self := f o]> h !! l = Some o' ∧ class o' = class o0
                 ∧ (class o0 = House → o' = o0))
            ∧ length h ≤ length (<[self := f o]> h)) as Hstep.
  { intros self o f Hself Hcls Hf. split; [|by rewrite length_insert].
    intros l o0 Hl. destruct (decide (l = self)) as [->|Hne].
    - rewrite list_lookup_insert_eq by by eapply lookup_lt_Some.
      exists (f o). split; [done|].
      assert (o0 = o) as -> by congruence.
      split; [apply Hf|]. intros HH. congruence.
    - rewrite list_lookup_insert_ne by done. eauto. }
  destruct r as [self v|self v|self]; simpl;
    unfold add_garage, add_swimming_pool, build, bind, load;
    (destruct (h !! self) as [o|] eqn:Hself; simpl; [|by split]);
    (destruct (class o) eqn:Hcls; simpl; [by split|]).
  - by apply (Hstep self o (set_has_garage v)).
  - by apply (Hstep self o (set_has_swimming_pool v)).
  - split; [|rewrite length_app; lia].
    intros l o0 Hl. exists o0. by rewrite (lookup_app_l_Some _ _ _ _ Hl).
Qed.

(** X5: whatever requests a client makes, in whatever order and whether
    or not some of them raise, a house that is in the heap stays exactly
    as it is; every object keeps its class; and the heap never shrinks. *)
Theorem houses_are_never_modified (rs : list request) h (l : loc) o :
  h !! l = Some o →
  ∃ o', perform_all rs h !! l = Some o'
    ∧ class o' = class o
    ∧ (class o = House → o' = o)
    ∧ length h ≤ length (perform_all rs h).
Proof.
  revert h o. induction rs as [|r rs IH]; intros h o Hl; simpl.
  - exists o. by repeat split.
  - destruct (perform_keeps r h) as [Hkeep Hlen].
    destruct (Hkeep l o Hl) as (o1 & Hl1 & Hcls1 & Hhouse1).
    destruct (IH _ o1 Hl1) as (o' & Hl' & Hcls' & Hhouse' & Hlen').
    exists o'. split; [done|]. split; [congruence|].
    split; [|lia].
    intros Hh. rewrite Hhouse' by congruence. by apply Hhouse1.
Qed.

Lemma houses_are_never_modified_witness :
  let b := Obj HouseBuilder (AStr "concrete") (AStr "wood") (AStr "shingles")
             (ABool true) (ABool false) in
  let rs := [AddGarage 1 (ABool false); Build 0; AddSwimmingPool 0 ANone;
             Build 0; AddGarage 7 (AInt 3)] in
  ∃ o', perform_all rs [b; snapshot b] !! 1 = Some o'
    ∧ class o' = class (snapshot b)
    ∧ (class (snapshot b) = House → o' = snapshot b)
    ∧ length [b; snapshot b] ≤ length (perform_all rs [b; snapshot b]).
Proof.
  intros b rs.
  apply (houses_are_never_modified rs [b; snapshot b] 1 (snapshot b)).
  reflexivity.
Defined.

(** X6: a new builder taken through both steps builds the very object
    the call [House(f, s, r, g, p)] creates, and a new builder taken
    through no step builds the object of [House(f, s, r)], with both
    optional parts [False]. *)
Theorem builder_builds_what_the_constructor_would
    h (f s r g p : atom) :
  (∃ house h1 h2,
     bind (HouseBuilder_new f s r) (λ b, chain_garage_pool b g p) h =
       (Ret house, h1)
     ∧ House_new f s r (Some g) (Some p) h = (Ret (length h), h2)
     ∧ h1 !! house = h2 !! length h
     ∧ h1 !! house = Some (Obj House f s r g p))
  ∧ (∃ house h1 h2,
       bind (HouseBuilder_new f s r) build h = (Ret house, h1)
       ∧ House_new f s r None None h = (Ret (length h), h2)
       ∧ h1 !! house = h2 !! length h
       ∧ h1 !! house = Some (Obj House f s r (ABool false) (ABool false))).
Proof.
  set (b := Obj HouseBuilder f s r (ABool false) (ABool false)).
  assert ((h ++ [b]) !! length h = Some b) as Hb by apply lookup_new.
  assert (length (h ++ [b]) = S (length h)) as Hlen.
  { rewrite length_app. simpl. lia. }
  split.
  - destruct (chain_garage_pool_eq (h ++ [b]) (length h) b g p Hb eq_refl)
      as (h1 & Hrun & Hhouse & _).
    exists (length (h ++ [b])), h1. eexists.
    split; [exact Hrun|]. split; [reflexivity|].
    rewrite Hhouse. simpl. by rewrite lookup_new.
  - exists (length (h ++ [b])). eexists _, _.
    split; [exact (build_eq (h ++ [b]) (length h) b Hb eq_refl)|].
    split; [reflexivity|].
    rewrite !lookup_new. by split.
Qed.

(** X7: the two steps commute: on a builder, [add_garage(g)] followed by
    [add_swimming_pool(p)] leaves the same heap, and returns the same
    reference, as the two calls in the other order. *)
Theorem builder_steps_commute h self o (g p : atom) :
  h !! self = Some o → class o = HouseBuilder →
  bind (add_garage self g) (λ b, add_swimming_pool b p) h =
  bind (add_swimming_pool self p) (λ b, add_garage b g) h.
Proof.
  intros Hself Hcls.
  pose proof (loc_allocated _ _ _ Hself) as Hlt.
  rewrite (bind_returns _ _ _ _ _ (add_garage_eq h self o g Hself Hcls)).
  rewrite (bind_returns _ _ _ _ _
             (add_swimming_pool_eq h self o p Hself Hcls)).
  rewrite (add_swimming_pool_eq _ self (set_has_garage g o) p);
    [|by apply list_lookup_insert_eq|done].
  rewrite (add_garage_eq _ self (set_has_swimming_pool p o) g);
    [|by apply list_lookup_insert_eq|done].
  by rewrite !list_insert_insert_eq.
Qed.

Lemma builder_steps_commute_witness :
  let b := Obj HouseBuilder (AStr "stone") (AStr "brick") (AStr "slate")
             (ABool false) (ABool false) in
  bind (add_garage 0 (ABool true)) (λ b, add_swimming_pool b (AInt 1)) [b] =
  bind (add_swimming_pool 0 (AInt 1)) (λ b, add_garage b (ABool true)) [b].
Proof.
  intros b.
  apply (builder_steps_commute [b] 0 b (ABool true) (AInt 1)); reflexivity.
Defined.

(** X8: a step call replaces the earlier call of the same step
    altogether: two [add_garage] calls in a row leave the heap that the
    second call alone leaves, and likewise for [add_swimming_pool]. *)
Theorem builder_step_absorbs_earlier_call h self o (v1 v2 : atom) :
  h !! self = Some o → class o = HouseBuilder →
  bind (add_garage self v1) (λ b, add_garage b v2) h = add_garage self v2 h
  ∧ bind (add_swimming_pool self v1) (λ b, add_swimming_pool b v2) h =
      add_swimming_pool self v2 h.
Proof.
  intros Hself Hcls.
  pose proof (loc_allocated _ _ _ Hself) as Hlt.
  split.
  - rewrite (bind_returns _ _ _ _ _ (add_garage_eq h self o v1 Hself Hcls)).
    rewrite (add_garage_eq _ self (set_has_garage v1 o) v2);
      [|by apply list_lookup_insert_eq|done].
    rewrite (add_garage_eq h self o v2 Hself Hcls).
    by rewrite list_insert_insert_eq.
  - rewrite (bind_returns _ _ _ _ _
               (add_swimming_pool_eq h self o v1 Hself Hcls)).
    rewrite (add_swimming_pool_eq _ self (set_has_swimming_pool v1 o) v2);
      [|by apply list_lookup_insert_eq|done].
    rewrite (add_swimming_pool_eq h self o v2 Hself Hcls).
    by rewrite list_insert_insert_eq.
Qed.

Lemma builder_step_absorbs_earlier_call_witness :
  let b := Obj HouseBuilder (AStr "stone") (AStr "brick") (AStr "slate")
             (ABool false) (ABool true) in
  bind (add_garage 0 (AStr "double")) (λ b, add_garage b ANone) [b] =
    add_garage 0 ANone [b]
  ∧ bind (add_swimming_pool 0 (AStr "double"))
      (λ b, add_swimming_pool b ANone) [b] =
      add_swimming_pool 0 ANone [b].
Proof.
  intros b.
  apply (builder_step_absorbs_earlier_call [b] 0 b (AStr "double") ANone);
    reflexivity.
Defined.

(** X9: [build()] ends a chain.  What it returns is a house, not the
    builder, so a step or a second [build()] chained onto its result
    raises [AttributeError]; the house built stays in the heap. *)
Theorem build_ends_the_chain h self o v :
  h !! self = Some o → class o = HouseBuilder →
  ∃ h1, build self h = (Ret (length h), h1)
    ∧ bind (build self) (λ house, add_garage house v) h =
        (Raise AttributeError, h1)
    ∧ bind (build self) (λ house, add_swimming_pool house v) h =
        (Raise AttributeError, h1)
    ∧ bind (build self) build h = (Raise AttributeError, h1).
Proof.
  intros Hself Hcls. exists (h ++ [snapshot o]).
  pose proof (build_eq h self o Hself Hcls) as Hbuild.
  split; [done|].
  pose proof (lookup_new h (snapshot o)) as Hhouse.
  repeat split; rewrite (bind_returns _ _ _ _ _ Hbuild).
  - by apply (perform_on_house (AddGarage (length h) v) _ (length h)
                (snapshot o)).
  - by apply (perform_on_house (AddSwimmingPool (length h) v) _ (length h)
                (snapshot o)).
  - by apply (perform_on_house (Build (length h)) _ (length h) (snapshot o)).
Qed.

Lemma build_ends_the_chain_witness :
  let b := Obj HouseBuilder (AStr "stone") (AStr "brick") (AStr "slate")
             (ABool false) (ABool true) in
  ∃ h1, build 0 [b] = (Ret 1, h1)
    ∧ bind (build 0) (λ house, add_garage house (ABool true)) [b] =
        (Raise AttributeError, h1)
    ∧ bind (build 0) (λ house, add_swimming_pool house (ABool true)) [b] =
        (Raise AttributeError, h1)
    ∧ bind (build 0) build [b] = (Raise AttributeError, h1).
Proof.
  intros b. apply (build_ends_the_chain [b] 0 b (ABool true)); reflexivity.
Defined.

(** X10: [House.__str__] reads the two optional parts only for their
    truth value: two houses with the same basic parts, whose optional
    parts are true or false together, print alike -- [1] or a non-empty
    string prints as [True] does, [None], [0] and the empty string as
    [False] does. *)
Theorem House_str_reads_truth_values o1 o2 :
  foundation o1 = foundation o2 →
  structure o1 = structure o2 →
  roof o1 = roof o2 →
  truthy (has_garage o1) = truthy (has_garage o2) →
  truthy (has_swimming_pool o1) = truthy (has_swimming_pool o2) →
  House_str o1 = House_str o2.
Proof.
  intros Hf Hs Hr Hg Hp. unfold House_str. by rewrite Hf, Hs, Hr, Hg, Hp.
Qed.

Lemma House_str_reads_truth_values_witness :
  House_str (Obj House (AStr "stone") (AStr "brick") (AStr "slate")
               (AInt 2) (AStr ""))
  = House_str (Obj House (AStr "stone") (AStr "brick") (AStr "slate")
                 (ABool true) ANone).
Proof. apply House_str_reads_truth_values; reflexivity. Defined.

End BuilderMore.

(** ** Singleton_Pattern/singleton_pattern.py *)

Section SingletonMore.
Import SingletonPattern.

Implicit Types (s : store) (l : loc) (args : list val)
  (kwargs sh : gmap string val).

Lemma object_new_no_excess (c : cls) args kwargs s :
  excess_args args kwargs = false →
  object_new c args kwargs s = (Ret (length (objs s)), allocate c s).
Proof. intros H. unfold object_new. by rewrite H. Qed.

Lemma object_new_Singleton_excess args kwargs s :
  excess_args args kwargs = true →
  object_new Singleton args kwargs s = (Raise TypeError, s).
Proof. intros H. unfold object_new. by rewrite H. Qed.

(** What one call of [Singleton] can do: raise [TypeError] and change
    nothing; return the instance there is and change nothing; or, when
    there is none, allocate it, store it and return it. *)
Lemma Singleton_call_effect args kwargs s :
  Singleton_call args kwargs s = (Raise TypeError, s)
  ∨ (∃ l, Singleton_instance s = Some l
       ∧ Singleton_call args kwargs s = (Ret (Some l), s))
  ∨ (Singleton_instance s = None
       ∧ Singleton_call args kwargs s =
           (Ret (Some (length (objs s))),
            set_Singleton_instance (Some (length (objs s)))
              (allocate Singleton s))).
Proof.
  destruct (kwargs !! "cls") as [v|] eqn:Hcls.
  { left. by apply (Singleton_call_cls_keyword _ _ _ v). }
  destruct (Singleton_instance s) as [l|] eqn:Hinst.
  { right. left. exists l. split; [done|]. by apply Singleton_call_existing. }
  destruct (excess_args args kwargs) eqn:Hexcess.
  - left. unfold Singleton_call, Singleton___new__, bind, gets, bind_params.
    rewrite Hcls. simpl. rewrite Hinst. simpl.
    by rewrite object_new_Singleton_excess.
  - right. right. split; [done|].
    unfold Singleton_call, Singleton___new__, bind, gets, bind_params.
    rewrite Hcls. simpl. rewrite Hinst. simpl.
    rewrite object_new_no_excess by done. simpl.
    rewrite lookup_app_r, Nat.sub_diag by done. simpl.
    by rewrite object_init_Singleton.
Qed.

(** X11: a call of [Singleton] that cannot go through raises
    [TypeError] and leaves the store as it is, [_instance] included:
    when there is no instance yet and the call has arguments, which
    [object.__new__] refuses, or when a keyword argument is named "cls".
    A call without arguments made afterwards creates the instance as if
    nothing had happened. *)
Theorem Singleton_call_with_arguments_raises args kwargs s :
  (Singleton_instance s = None ∧ excess_args args kwargs = true)
  ∨ is_Some (kwargs !! "cls") →
  Singleton_call args kwargs s = (Raise TypeError, s)
  ∧ Singleton_call [] ∅ (Singleton_call args kwargs s).2 =
      Singleton_call [] ∅ s.
Proof.
  intros Hcase.
  assert (Singleton_call args kwargs s = (Raise TypeError, s)) as Hraise.
  { destruct Hcase as [[Hinst Hexcess]|[v Hcls]].
    - destruct (kwargs !! "cls") as [v|] eqn:Hcls.
      { by apply (Singleton_call_cls_keyword _ _ _ v). }
      unfold Singleton_call, Singleton___new__, bind, gets, bind_params.
      rewrite Hcls. simpl. rewrite Hinst. simpl.
      by rewrite object_new_Singleton_excess.
    - by apply (Singleton_call_cls_keyword _ _ _ v). }
  split; [done|]. by rewrite Hraise.
Qed.

Lemma Singleton_call_with_arguments_raises_witness :
  Singleton_call [VAtom (AInt 1)] ∅ init = (Raise TypeError, init)
  ∧ Singleton_call [] ∅ (Singleton_call [VAtom (AInt 1)] ∅ init).2 =
      Singleton_call [] ∅ init.
Proof.
  apply (Singleton_call_with_arguments_raises [VAtom (AInt 1)] ∅ init).
  left. split; reflexivity.
Defined.

(** [Borg()] goes through in every store: the new object gets the
    shared dict as its [__dict__], and no dict changes. *)
Lemma Borg_call_effect s :
  Borg_call s =
    (Ret (length (objs s)),
     Store (objs s ++ [Obj Borg (Borg_shared_state s)]) (dicts s ++ [∅])
       (Singleton_instance s) (Borg_shared_state s)).
Proof.
  unfold Borg_call.
  rewrite (bind_returns _ _ _ _ _ (object_new_noargs Borg s)).
  erewrite bind_returns; [reflexivity|]. by apply Borg___init___new.
Qed.

(** What one call of [Singleton1] can do, in every store: it appends one
    object, whose [__dict__] is the shared dict unless the arguments
    could not be bound; it appends one dict and may update dicts, never
    removing one; it leaves the class attributes alone.  When it returns,
    it returns the new object. *)
Lemma Singleton1_call_effect kwargs s :
  ∃ r x ds,
    Singleton1_call kwargs s =
      (r, Store (objs s ++ [Obj Singleton1 x]) ds (Singleton_instance s)
            (Borg_shared_state s))
    ∧ length ds = S (length (dicts s))
    ∧ (x = Borg_shared_state s ∨ x = length (dicts s))
    ∧ (∀ l, r = Ret l → l = length (objs s) ∧ x = Borg_shared_state s).
Proof.
  unfold Singleton1_call.
  rewrite (bind_returns _ _ _ _ _ (object_new_Singleton1 kwargs s)).
  unfold Singleton1___init__.
  destruct (kwargs !! "self") as [v|] eqn:Hself.
  { exists (Raise TypeError), (length (dicts s)), (dicts s ++ [∅]).
    split.
    - erewrite bind_raises; [reflexivity|].
      erewrite bind_raises; [reflexivity|].
      by apply (bind_params_clash _ _ v).
    - split; [rewrite length_app; simpl; lia|]. split; [by right|].
      intros l Hl. discriminate Hl. }
  set (sd := Borg_shared_state s).
  set (s2 := Store (objs s ++ [Obj Singleton1 sd]) (dicts s ++ [∅])
               (Singleton_instance s) sd).
  assert (bind (bind_params "self" kwargs)
            (λ _, bind (Borg___init__ (length (objs s)))
                    (λ _, bind (getattr (length (objs s)) "_shared_state")
                            (λ shared, call_update shared kwargs)))
            (allocate Singleton1 s)
          = bind (getattr (length (objs s)) "_shared_state")
              (λ shared, call_update shared kwargs) s2) as Hinit.
  { erewrite bind_returns; last by apply bind_params_free.
    erewrite bind_returns; [reflexivity|]. by apply Borg___init___new. }
  assert (length (dicts s ++ [∅]) = S (length (dicts s))) as Hlen.
  { rewrite length_app. simpl. lia. }
  assert (objs s2 !! length (objs s) = Some (Obj Singleton1 sd)) as Hobj.
  { simpl. by rewrite lookup_app_r, Nat.sub_diag. }
  destruct (getattr (length (objs s)) "_shared_state" s2) as [rv s3] eqn:Hget.
  assert (s3 = s2) as ->.
  { unfold getattr in Hget. rewrite Hobj in Hget.
    repeat case_match; congruence. }
  destruct rv as [[a|d]|e].
  - exists (Raise AttributeError), sd, (dicts s ++ [∅]). split.
    + erewrite bind_raises; [reflexivity|]. rewrite Hinit.
      erewrite bind_returns; [|exact Hget]. reflexivity.
    + split; [done|]. split; [by left|]. intros l Hl. discriminate Hl.
  - exists (Ret (length (objs s))), sd,
      (alter (λ old, kwargs ∪ old) d (dicts s ++ [∅])). split.
    + erewrite bind_returns; [reflexivity|]. rewrite Hinit.
      erewrite bind_returns; [|exact Hget]. reflexivity.
    + split; [by rewrite length_alter|]. split; [by left|].
      intros l [= <-]. by split.
  - exists (Raise e), sd, (dicts s ++ [∅]). split.
    + erewrite bind_raises; [reflexivity|]. rewrite Hinit.
      erewrite bind_raises; [|exact Hget]. reflexivity.
    + split; [done|]. split; [by left|]. intros l Hl. discriminate Hl.
Qed.

(** What any one call does to the store: it appends at most one object
    and as many dicts, never rebinds [_shared_state], and binds
    [_instance] only to a new object of class [Singleton], and only while
    it is [None]. *)
Lemma perform_effect (c : call) s :
  let s' := (perform c s).2 in
  ∃ extra,
    objs s' = objs s ++ extra
    ∧ Borg_shared_state s' = Borg_shared_state s
    ∧ length (dicts s') = length (dicts s) + length extra
    ∧ ((Singleton_instance s' = Singleton_instance s
        ∧ (extra = []
           ∨ ∃ k x, extra = [Obj k x] ∧ k ≠ Singleton
               ∧ (x = Borg_shared_state s ∨ x = length (dicts s))))
       ∨ (Singleton_instance s = None
          ∧ Singleton_instance s' = Some (length (objs s))
          ∧ extra = [Obj Singleton (length (dicts s))])).
Proof.
  destruct c as [args kwargs| |kwargs]; simpl.
  - destruct (Singleton_call_effect args kwargs s)
      as [->|[(l & Hinst & ->)|(Hinst & ->)]]; simpl.
    + exists []. rewrite app_nil_r.
      do 2 (split; [done|]). split; [simpl; lia|]. left. split; [done|by left].
    + exists []. rewrite app_nil_r.
      do 2 (split; [done|]). split; [simpl; lia|]. left. split; [done|by left].
    + exists [Obj Singleton (length (dicts s))].
      do 2 (split; [done|]). split; [by rewrite length_app|]. by right.
  - rewrite (bind_returns _ _ _ _ _ (Borg_call_effect s)). simpl.
    exists [Obj Borg (Borg_shared_state s)].
    do 2 (split; [done|]). split; [by rewrite length_app|].
    left. split; [done|]. right. exists Borg, (Borg_shared_state s).
    split; [done|]. split; [done|by left].
  - destruct (Singleton1_call_effect kwargs s)
      as (r & x & ds & Hcall & Hlen & Hx & _).
    assert ((bind (Singleton1_call kwargs) (λ l, ret (Some l)) s).2 =
              Store (objs s ++ [Obj Singleton1 x]) ds (Singleton_instance s)
                (Borg_shared_state s)) as ->.
    { unfold bind. rewrite Hcall. by destruct r. }
    simpl. exists [Obj Singleton1 x].
    do 2 (split; [done|]). split; [simpl; lia|].
    left. split; [done|]. right. by exists Singleton1, x.
Qed.

Lemma wf_init : wf init.
Proof.
  split; [simpl; lia|]. split.
  - intros l o Hl. simpl in Hl. by rewrite lookup_nil in Hl.
  - intros l Hl. discriminate Hl.
Qed.

Lemma perform_wf (c : call) s : wf s → wf (perform c s).2.
Proof.
  intros (Hshared & Hdicts & Hinst).
  destruct (perform_effect c s) as (extra & Hobjs & Hsd & Hlen & Hcases).
  simpl in *. split; [rewrite Hsd; lia|]. split.
  - intros l o. rewrite Hobjs. intros Hl.
    apply lookup_app_Some in Hl as [Hl|[_ Hl]].
    + specialize (Hdicts l o Hl). lia.
    + destruct Hcases as [[_ [->|(k & x & -> & _ & Hx)]]|(_ & _ & ->)].
      * by rewrite lookup_nil in Hl.
      * apply list_lookup_singleton_Some in Hl as [_ <-]. simpl in *.
        destruct Hx as [->| ->]; lia.
      * apply list_lookup_singleton_Some in Hl as [_ <-]. simpl in *. lia.
  - intros l Hl. rewrite Hobjs.
    destruct Hcases as [[Hsame _]|(_ & Hnew & ->)].
    + rewrite Hsame in Hl. destruct (Hinst l Hl) as [d Hd].
      exists d. by apply lookup_app_l_Some.
    + rewrite Hnew in Hl. injection Hl as <-.
      eexists. by rewrite lookup_app_r, Nat.sub_diag.
Qed.

(** X12: whatever calls of the three classes a program makes after the
    module is loaded, whether they return or raise, no reference ever
    dangles: the shared dict and the [__dict__] of every object exist,
    and [_instance], once it is set, refers to an object of class
    [Singleton]. *)
Theorem no_reference_dangles (cs : list call) : wf (perform_all cs init).
Proof.
  generalize wf_init. generalize init.
  induction cs as [|c cs IH]; intros s Hwf; [done|].
  simpl. by apply IH, perform_wf.
Qed.

(** One call keeps the count of [Singleton] objects in step with
    [_instance]. *)
Lemma perform_counts (c : call) s :
  length (Singleton_objs s) =
    (if truthy_instance (Singleton_instance s) then 1 else 0) →
  length (Singleton_objs (perform c s).2) =
    (if truthy_instance (Singleton_instance (perform c s).2) then 1 else 0).
Proof.
  intros Hcount.
  destruct (perform_effect c s) as (extra & Hobjs & _ & _ & Hcases).
  simpl in *. unfold Singleton_objs in *. rewrite Hobjs, filter_app, length_app.
  destruct Hcases as [[-> [->|(k & x & -> & Hk & _)]]|(Hnone & -> & ->)].
  - simpl. lia.
  - rewrite filter_cons_False by done. simpl. lia.
  - rewrite Hnone in Hcount. rewrite filter_cons_True by done.
    simpl in *. lia.
Qed.

(** X13: whatever calls of the three classes a program makes after the
    module is loaded, and with whatever arguments, at most one object of
    class [Singleton] is ever allocated: there is none while [_instance]
    is [None] and exactly one once it is set. *)
Theorem at_most_one_Singleton_object (cs : list call) :
  let s := perform_all cs init in
  length (Singleton_objs s) ≤ 1
  ∧ length (Singleton_objs s) =
      (if truthy_instance (Singleton_instance s) then 1 else 0).
Proof.
  assert (∀ s0,
            length (Singleton_objs s0) =
              (if truthy_instance (Singleton_instance s0) then 1 else 0) →
            length (Singleton_objs (perform_all cs s0)) =
              (if truthy_instance (Singleton_instance (perform_all cs s0))
               then 1 else 0))
    as Hall.
  { induction cs as [|c cs IH]; intros s0 H0; [done|].
    simpl. by apply IH, perform_counts. }
  simpl. specialize (Hall init eq_refl).
  split; [|done]. rewrite Hall. destruct (truthy_instance _); lia.
Qed.

(** X14: whenever a call of [Singleton1] returns, in any store, what it
    returns is a new object -- its reference was free before, and every
    object there was is still there, under another reference -- and the
    [__dict__] of the new object is the shared dict. *)
Theorem Singleton1_returns_new_object_on_shared_dict kwargs s l s' :
  Singleton1_call kwargs s = (Ret l, s') →
  l = length (objs s)
  ∧ objs s !! l = None
  ∧ objs s' !! l = Some (Obj Singleton1 (Borg_shared_state s))
  ∧ (∀ l' o, objs s !! l' = Some o → objs s' !! l' = Some o ∧ l' ≠ l).
Proof.
  intros Hcall.
  destruct (Singleton1_call_effect kwargs s)
    as (r & x & ds & Heff & _ & _ & Hret).
  rewrite Hcall in Heff. injection Heff as <- ->.
  destruct (Hret l eq_refl) as [-> ->].
  split; [done|]. split; [by apply lookup_ge_None_2|].
  simpl. split; [by rewrite lookup_app_r, Nat.sub_diag|].
  intros l' o Hl'. split; [by apply lookup_app_l_Some|].
  apply lookup_lt_Some in Hl'. lia.
Qed.

Lemma Singleton1_returns_new_object_on_shared_dict_witness :
  let kwargs : gmap string val := <["a" := VAtom (AInt 1)]> ∅ in
  let s := (Singleton_call [] ∅ init).2 in
  1 = length (objs s)
  ∧ objs s !! 1 = None
  ∧ objs (Singleton1_call kwargs s).2 !! 1 =
      Some (Obj Singleton1 (Borg_shared_state s))
  ∧ (∀ l' o, objs s !! l' = Some o →
       objs (Singleton1_call kwargs s).2 !! l' = Some o ∧ l' ≠ 1).
Proof.
  intros kwargs s.
  apply (Singleton1_returns_new_object_on_shared_dict kwargs s 1
           (Singleton1_call kwargs s).2).
  by vm_compute.
Defined.

(** X15: in a store whose shared dict has no entry "_shared_state", two
    calls of [Singleton1] with field sets [F1] and [F2] -- [F1] without
    a field "_shared_state", neither with a field "self" -- return two
    different objects that show the same mapping: a field of [F2] has
    the value [F2] gives it, any other field the value [F1] gives it,
    or else the value it had before. *)
Theorem Singleton1_instances_show_merged_fields
    s (F1 F2 : gmap string val) sh :
  F1 !! "self" = None → F2 !! "self" = None →
  dicts s !! Borg_shared_state s = Some sh →
  sh !! "_shared_state" = None →
  F1 !! "_shared_state" = None →
  ∃ l1 l2 s1 s2 shown,
    Singleton1_call F1 s = (Ret l1, s1)
    ∧ Singleton1_call F2 s1 = (Ret l2, s2)
    ∧ l1 ≠ l2
    ∧ vars l1 s2 = Some shown ∧ vars l2 s2 = Some shown
    ∧ (∀ k v, F2 !! k = Some v → shown !! k = Some v)
    ∧ (∀ k v, F2 !! k = None → F1 !! k = Some v → shown !! k = Some v)
    ∧ (∀ k, F2 !! k = None → F1 !! k = None → shown !! k = sh !! k).
Proof.
  intros Hself1 Hself2 Hsh Hfree HF1.
  destruct (Singleton1_calls_share_state s F1 F2 sh Hself1 Hself2 Hsh Hfree
              HF1) as (s1 & s2 & Hc1 & Hc2 & _ & _ & Hv1 & Hv2).
  exists (length (objs s)), (S (length (objs s))), s1, s2, (F2 ∪ (F1 ∪ sh)).
  do 2 (split; [done|]). split; [lia|]. do 2 (split; [done|]).
  split; [|split].
  - intros k v Hk. by apply lookup_union_Some_l.
  - intros k v Hk2 Hk1. rewrite lookup_union_r by done.
    by apply lookup_union_Some_l.
  - intros k Hk2 Hk1. by rewrite !lookup_union_r.
Qed.

Lemma Singleton1_instances_show_merged_fields_witness :
  let F1 : gmap string val :=
    <["b" := VAtom (AInt 2)]> (<["a" := VAtom (AInt 1)]> ∅) in
  let F2 : gmap string val :=
    <["c" := VAtom (AInt 3)]> (<["a" := VAtom (AStr "new")]> ∅) in
  ∃ l1 l2 s1 s2 shown,
    Singleton1_call F1 init = (Ret l1, s1)
    ∧ Singleton1_call F2 s1 = (Ret l2, s2)
    ∧ l1 ≠ l2
    ∧ vars l1 s2 = Some shown ∧ vars l2 s2 = Some shown
    ∧ (∀ k v, F2 !! k = Some v → shown !! k = Some v)
    ∧ (∀ k v, F2 !! k = None → F1 !! k = Some v → shown !! k = Some v)
    ∧ (∀ k, F2 !! k = None → F1 !! k = None →
         shown !! k = (∅ : gmap string val) !! k).
Proof.
  intros F1 F2.
  apply (Singleton1_instances_show_merged_fields init F1 F2 ∅);
    reflexivity.
Defined.

(** With an atom under "_shared_state" in the shared dict, no call
    changes that dict. *)
Lemma perform_shadowed (c : call) s sh (a : atom) :
  dicts s !! Borg_shared_state s = Some sh →
  sh !! "_shared_state" = Some (VAtom a) →
  dicts (perform c s).2 !! Borg_shared_state (perform c s).2 = Some sh.
Proof.
  intros Hsh Hshadow. destruct c as [args kwargs| |kwargs]; simpl.
  - destruct (Singleton_call_effect args kwargs s)
      as [->|[(l & Hinst & ->)|(Hinst & ->)]]; simpl; [done|done|].
    by apply lookup_app_l_Some.
  - rewrite (bind_returns _ _ _ _ _ (Borg_call_effect s)). simpl.
    by apply lookup_app_l_Some.
  - destruct (kwargs !! "self") as [v|] eqn:Hself.
    + assert (Singleton1_call kwargs s =
                (Raise TypeError, allocate Singleton1 s)) as Hcall.
      { unfold Singleton1_call.
        rewrite (bind_returns _ _ _ _ _ (object_new_Singleton1 kwargs s)).
        apply bind_raises, bind_raises. by apply (bind_params_clash _ _ v). }
      unfold bind. rewrite Hcall. simpl. by apply lookup_app_l_Some.
    + destruct (Singleton1_call_shadowed s kwargs sh a Hself Hsh Hshadow)
        as (s' & Hcall & Hkeep).
      unfold bind. by rewrite Hcall.
Qed.

(** X16: once the shared dict holds an atom under "_shared_state", the
    shared state is frozen: whatever calls of the three classes follow,
    the shared dict stays exactly as it is, and every call of
    [Singleton1] raises. *)
Theorem shadowed_shared_state_is_frozen
    (cs : list call) s sh (a : atom) :
  dicts s !! Borg_shared_state s = Some sh →
  sh !! "_shared_state" = Some (VAtom a) →
  let s' := perform_all cs s in
  dicts s' !! Borg_shared_state s' = Some sh
  ∧ ∀ kwargs, raises (Singleton1_call kwargs s').1.
Proof.
  intros Hsh Hshadow.
  assert (dicts (perform_all cs s) !! Borg_shared_state (perform_all cs s)
            = Some sh) as Hkeep.
  { revert s Hsh. induction cs as [|c cs IH]; intros s Hsh; [done|].
    simpl. by apply IH, (perform_shadowed c s sh a). }
  simpl. split; [done|]. intros kwargs.
  destruct (Singleton1_call_effect kwargs (perform_all cs s))
    as (r & x & ds & Hcall & _ & _ & _).
  destruct (kwargs !! "self") as [v|] eqn:Hself.
  - exists TypeError. unfold Singleton1_call.
    rewrite (bind_returns _ _ _ _ _ (object_new_Singleton1 kwargs _)).
    erewrite bind_raises; [reflexivity|].
    apply bind_raises. by apply (bind_params_clash _ _ v).
  - destruct (Singleton1_call_shadowed _ kwargs sh a Hself Hkeep Hshadow)
      as (s' & -> & _).
    by exists AttributeError.
Qed.

Lemma shadowed_shared_state_is_frozen_witness :
  let F : gmap string val := <["_shared_state" := VAtom (AInt 1)]> ∅ in
  let s := (Singleton1_call F init).2 in
  let cs := [CallSingleton1 (<["a" := VAtom (AInt 2)]> ∅); CallBorg;
             CallSingleton [] ∅; CallSingleton1 ∅] in
  dicts (perform_all cs s) !! Borg_shared_state (perform_all cs s) = Some F
  ∧ ∀ kwargs, raises (Singleton1_call kwargs (perform_all cs s)).1.
Proof.
  intros F s cs.
  apply (shadowed_shared_state_is_frozen cs s F (AInt 1)); reflexivity.
Defined.

(** X17: [Borg()] never raises.  In any store whose shared dict exists
    it returns a new object that shows the shared mapping, and every
    object shows what it showed before -- also when the shared dict has
    an entry "_shared_state", where [Singleton1] can no longer be
    called. *)
Theorem Borg_call_always_returns s sh :
  dicts s !! Borg_shared_state s = Some sh →
  ∃ s', Borg_call s = (Ret (length (objs s)), s')
    ∧ objs s !! length (objs s) = None
    ∧ vars (length (objs s)) s' = Some sh
    ∧ (∀ l m, vars l s = Some m → vars l s' = Some m).
Proof.
  intros Hsh. eexists. split; [apply Borg_call_effect|].
  split; [by apply lookup_ge_None_2|].
  unfold vars. simpl. split.
  - rewrite lookup_app_r, Nat.sub_diag by done. simpl.
    by apply lookup_app_l_Some.
  - intros l m Hl.
    destruct (objs s !! l) as [o|] eqn:Ho; [|discriminate Hl].
    rewrite (lookup_app_l_Some _ _ _ _ Ho). simpl in *.
    by apply lookup_app_l_Some.
Qed.

Lemma Borg_call_always_returns_witness :
  let F : gmap string val := <["_shared_state" := VAtom (AInt 1)]> ∅ in
  let s := (Singleton1_call F init).2 in
  ∃ s', Borg_call s = (Ret (length (objs s)), s')
    ∧ objs s !! length (objs s) = None
    ∧ vars (length (objs s)) s' = Some F
    ∧ (∀ l m, vars l s = Some m → vars l s' = Some m).
Proof.
  intros F s. apply (Borg_call_always_returns s F). reflexivity.
Defined.

(** X18: a keyword argument named "self" cannot be bound by
    [Singleton1.__init__]: the call raises [TypeError] after the object
    was allocated, and none of the fields it was given reaches the shared
    dict, which shows what it showed before. *)
Theorem Singleton1_call_with_self_keyword_raises kwargs s (v : val) sh :
  kwargs !! "self" = Some v →
  dicts s !! Borg_shared_state s = Some sh →
  ∃ s', Singleton1_call kwargs s = (Raise TypeError, s')
    ∧ dicts s' !! Borg_shared_state s' = Some sh
    ∧ (∀ l m, vars l s = Some m → vars l s' = Some m).
Proof.
  intros Hself Hsh. exists (allocate Singleton1 s). split.
  - unfold Singleton1_call.
    rewrite (bind_returns _ _ _ _ _ (object_new_Singleton1 kwargs s)).
    apply bind_raises, bind_raises. by apply (bind_params_clash _ _ v).
  - simpl. split; [by apply lookup_app_l_Some|].
    intros l m Hl. unfold vars in *. simpl.
    destruct (objs s !! l) as [o|] eqn:Ho; [|discriminate Hl].
    rewrite (lookup_app_l_Some _ _ _ _ Ho). simpl in *.
    by apply lookup_app_l_Some.
Qed.

Lemma Singleton1_call_with_self_keyword_raises_witness :
  let kwargs : gmap string val :=
    <["self" := VAtom (AInt 1)]> (<["a" := VAtom (AInt 2)]> ∅) in
  ∃ s', Singleton1_call kwargs init = (Raise TypeError, s')
    ∧ dicts s' !! Borg_shared_state s' = Some ∅
    ∧ (∀ l m, vars l init = Some m → vars l s' = Some m).
Proof.
  intros kwargs.
  apply (Singleton1_call_with_self_keyword_raises kwargs init
           (VAtom (AInt 1)) ∅); reflexivity.
Defined.

(** X19: the two patterns of the script do not interfere.  A call of
    [Singleton], whatever it does, never rebinds [_shared_state] and
    leaves every object showing what it showed; a call of [Singleton1] or
    [Borg], whatever it does, leaves [_instance] as it is. *)
Theorem singleton_and_borg_do_not_interfere s :
  (∀ args kwargs,
     let s' := (Singleton_call args kwargs s).2 in
     Borg_shared_state s' = Borg_shared_state s
     ∧ ∀ l m, vars l s = Some m → vars l s' = Some m)
  ∧ (∀ kwargs,
       Singleton_instance (Singleton1_call kwargs s).2 = Singleton_instance s)
  ∧ Singleton_instance (Borg_call s).2 = Singleton_instance s.
Proof.
  split; [|split].
  - intros args kwargs.
    destruct (Singleton_call_effect args kwargs s)
      as [->|[(l & Hinst & ->)|(Hinst & ->)]]; simpl; [done|done|].
    split; [done|]. intros l m Hl. unfold vars in *. simpl.
    destruct (objs s !! l) as [o|] eqn:Ho; [|discriminate Hl].
    rewrite (lookup_app_l_Some _ _ _ _ Ho). simpl in *.
    by apply lookup_app_l_Some.
  - intros kwargs.
    destruct (Singleton1_call_effect kwargs s) as (r & x & ds & -> & _).
    reflexivity.
  - by rewrite Borg_call_effect.
Qed.

End SingletonMore.
